(** * JMCtools: composite probability distributions

    A shallow embedding of [JMCtools/common.py] and
    [JMCtools/distributions.py].  Python lists that the code updates in place
    live in a store and are passed by reference; exceptions are values of
    [exn]; the numeric library and the atomic distributions are parameters of
    the development. *)

From Stdlib Require Import ZArith Lia Reals.
From stdpp Require Import base option list gmap strings.

Local Open Scope string_scope.
Local Open Scope list_scope.
Local Open Scope nat_scope.

(** ** Exceptions *)

(** The messages of the [ValueError]s that the two modules raise themselves,
    and the one numpy raises for an impossible [reshape]. *)
Inductive value_error :=
| FrozenParametersSupplied   (* "This distribution is frozen! You are not permitted to alter ..." *)
| UnfrozenNoParameters       (* "This distribution is not frozen, but no parameters were supplied ..." *)
| AlreadyFrozen              (* "This distribution is already frozen! You cannot re-freeze it ..." *)
| NoMixingWeights            (* "No mixing weights supplied!" *)
| NestedListInconsistency    (* "Inconsistency in nested list structure of arguments detected! ..." *)
| NoArguments                (* "Failed to find any arguments for this distribution! ..." *)
| UnpackFailure              (* unpacking [item.split(' -> ')] into [key,val] *)
| CannotReshape.             (* numpy: "cannot reshape array of size 0 into shape (0)" *)

Inductive exn :=
| ValueError (msg : value_error)
| AttributeError
| TypeError
| IndexError
| KeyError.

(** The error kinds of the design document. *)
Inductive error_kind :=
| FrozenStateViolation
| StructureMismatch
| MissingWeights
| ArgumentInferenceFailure
| OtherError.

Definition kind_of (e : exn) : error_kind :=
  match e with
  | ValueError FrozenParametersSupplied => FrozenStateViolation
  | ValueError UnfrozenNoParameters => FrozenStateViolation
  | ValueError AlreadyFrozen => FrozenStateViolation
  | ValueError NoMixingWeights => MissingWeights
  | ValueError NestedListInconsistency => StructureMismatch
  | ValueError NoArguments => ArgumentInferenceFailure
  | _ => OtherError
  end.

Inductive result (A : Type) :=
| Ok (a : A)
| Raise (e : exn).
Arguments Ok {A} a.
Arguments Raise {A} e.

(** Sequencing lets the first exception out; [x ← r; k] is stdpp's notation
    for it. *)
Global Instance result_ret : MRet result := fun _ a => Ok a.
Global Instance result_bind : MBind result := fun _ _ k r =>
  match r with
  | Ok a => k a
  | Raise e => Raise e
  end.

Definition is_ok {A} (r : result A) : bool :=
  match r with Ok _ => true | Raise _ => false end.

(** ** common.py: the structural map *)

#[local] Set Warnings "-register-all".

(** A Python value as [apply_f] sees it: a list of further values, or anything
    else. *)
Inductive nested (A : Type) :=
| Leaf (a : A)
| PyList (items : list (nested A)).
Arguments Leaf {A} a.
Arguments PyList {A} items.

Definition isinstance_list {A} (t : nested A) : bool :=
  match t with
  | PyList _ => true
  | Leaf _ => false
  end.

Definition items_of {A} (t : nested A) : list (nested A) :=
  match t with
  | PyList items => items
  | Leaf _ => []
  end.

Definition leaves_of {A} (ts : list (nested A)) : list A :=
  flat_map (fun t => match t with Leaf a => [a] | PyList _ => [] end) ts.

(** One step of [zip]: the heads and the tails of every list, [None] as soon
    as one of them is exhausted. *)
Fixpoint heads_tails {X} (ls : list (list X)) : option (list X * list (list X)) :=
  match ls with
  | [] => Some ([], [])
  | [] :: _ => None
  | (x :: xs) :: ls' =>
      match heads_tails ls' with
      | Some (hs, ts) => Some (x :: hs, xs :: ts)
      | None => None
      end
  end.

(** [zip(first, *rest)]: the tuples that [map(g, first, *rest)] passes to [g],
    cut at the shortest argument. *)
Fixpoint zip_star {X} (first : list X) (rest : list (list X)) : list (list X) :=
  match first with
  | [] => []
  | x :: xs =>
      match heads_tails rest with
      | None => []
      | Some (hs, ts) => (x :: hs) :: zip_star xs ts
      end
  end.

Section StructuralMap.
Context {A B : Type}.
Variable f : list A -> result B.

(** [apply_f(f, t, *others)].  The recursion follows the first argument;
    the inner loop is [list(map(lambda *items: apply_f(f,*items), *iters))],
    which stops at the shortest list and lets the first exception out. *)
Fixpoint apply_f_from (t : nested A) (others : list (nested A)) {struct t}
  : result (nested B) :=
  match t with
  | PyList items =>
      if forallb isinstance_list others then
        rs ← (fix map_star (items : list (nested A)) (rest : list (list (nested A)))
                   : result (list (nested B)) :=
                   match items with
                   | [] => Ok []
                   | c :: items' =>
                       match heads_tails rest with
                       | None => Ok []
                       | Some (hs, ts) =>
                           r ← apply_f_from c hs;
                           rs ← map_star items' ts;
                           Ok (r :: rs)
                       end
                   end) items (map items_of others);
        Ok (PyList rs)
      else Raise (ValueError NestedListInconsistency)
  | Leaf a =>
      if existsb isinstance_list others
      then Raise (ValueError NestedListInconsistency)
      else b ← f (a :: leaves_of others); Ok (Leaf b)
  end.

(** With no structure at all, [all(...)] holds of the empty tuple and
    [map] is called with the function alone, which is a [TypeError]. *)
Definition apply_f (iters : list (nested A)) : result (nested B) :=
  match iters with
  | [] => Raise TypeError
  | t :: others => apply_f_from t others
  end.

(** The loop of the list branch, on its own. *)
Fixpoint map_star (rows : list (list (nested A))) : result (list (nested B)) :=
  match rows with
  | [] => Ok []
  | row :: rows' =>
      r ← apply_f row;
      rs ← map_star rows';
      Ok (r :: rs)
  end.
End StructuralMap.

(** ** common.py: arrays and slices *)

Section Arrays.
Context {E : Type}.

(** A numpy array: its shape and its elements in row-major order. *)
Record ndarray := mk_ndarray { shape : list nat; data : list E }.

Definition np_prod (l : list nat) : nat := fold_right Nat.mul 1 l.

(** The elements are as many as the shape says. *)
Definition well_shaped (a : ndarray) : Prop := length (data a) = np_prod (shape a).

(** The [k]-th run of [w] elements. *)
Definition run (w : nat) (l : list E) (k : nat) : list E := firstn w (skipn (k * w) l).

(** [A.reshape((-1,A.shape[-1]))].  A 0-d array has no [shape[-1]]; a last
    axis of length 0 leaves the [-1] undetermined, which numpy refuses. *)
Definition almost_flatten (a : ndarray) : result ndarray :=
  match last (shape a) with
  | None => Raise IndexError
  | Some 0 => Raise (ValueError CannotReshape)
  | Some n => Ok (mk_ndarray [np_prod (removelast (shape a)); n] (data a))
  end.

(** An index into an axis of length [n]: negative ones count from the end. *)
Definition py_index (n : nat) (i : Z) : result nat :=
  if ((0 <=? i) && (i <? Z.of_nat n))%Z then Ok (Z.to_nat i)
  else if ((- Z.of_nat n <=? i) && (i <? 0))%Z then Ok (Z.to_nat (i + Z.of_nat n))
  else Raise IndexError.

(** A bound of a slice of an axis of length [n]: negative ones count from
    the end, and the result is clipped to the axis. *)
Definition py_slice_bound (n : nat) (i : Z) : nat :=
  if (i <? 0)%Z then Z.to_nat (Z.max 0 (i + Z.of_nat n))
  else Z.to_nat (Z.min i (Z.of_nat n)).

(** [F[i,:]] for a two-dimensional [F]: a one-dimensional array. *)
Definition take_row (F : ndarray) (i : Z) : result ndarray :=
  match shape F with
  | [r; n] => k ← py_index r i; Ok (mk_ndarray [n] (run n (data F) k))
  | _ => Raise IndexError
  end.

(** [F[i:j,:]] for a two-dimensional [F]: a two-dimensional array. *)
Definition take_rows (F : ndarray) (i j : Z) : result ndarray :=
  match shape F with
  | [r; n] =>
      let lo := py_slice_bound r i in
      let hi := py_slice_bound r j in
      Ok (mk_ndarray [hi - lo; n] (firstn ((hi - lo) * n) (skipn (lo * n) (data F))))
  | _ => Raise IndexError
  end.

(** Iterating over an array yields its items along the first axis. *)
Definition iter_axis0 (a : ndarray) : result (list ndarray) :=
  match shape a with
  | [] => Raise TypeError
  | n :: rest => Ok (map (fun k => mk_ndarray rest (run (np_prod rest) (data a) k)) (seq 0 n))
  end.

(** [list(v)] for the value that [apply_f] returned: a copy of a list, the
    items of an array. *)
Definition py_list (v : nested ndarray) : result (nested ndarray) :=
  match v with
  | PyList items => Ok (PyList items)
  | Leaf a => items ← iter_axis0 a; Ok (PyList (map Leaf items))
  end.

(** A function of one argument, as [apply_f] calls it. *)
Definition unary {X Y} (g : X -> result Y) (args : list X) : result Y :=
  match args with
  | [x] => g x
  | _ => Raise TypeError
  end.

(** [size[-1]] of the summary shape. *)
Definition last_of (size : list Z) : result Z :=
  match last size with
  | Some n => Ok n
  | None => Raise IndexError
  end.

(** [lambda A: almost_flatten(A)[i,:]]. *)
Definition row_at (i : Z) (A : ndarray) : result ndarray :=
  F ← almost_flatten A; take_row F i.

(** [lambda A: almost_flatten(A)[i:j,:]]. *)
Definition rows_between (i j : Z) (A : ndarray) : result ndarray :=
  F ← almost_flatten A; take_rows F i j.

(** [get_data_slice(x,i,j=None)] with [x = (data, size)]. *)
Definition get_data_slice (x : nested ndarray * list Z) (i : Z) (j : option Z)
  : result (nested ndarray * (Z * Z)) :=
  let '(data, size) := x in
  match j with
  | None =>
      v ← apply_f (unary (row_at i)) [data];
      data_slice ← py_list v;
      n ← last_of size;
      Ok (data_slice, (1%Z, n))
  | Some j =>
      v ← apply_f (unary (rows_between i j)) [data];
      data_slice ← py_list v;
      n ← last_of size;
      Ok (data_slice, ((j - i)%Z, n))
  end.

(** *** Splitting the last axis *)

(** The rows of an array: its runs along the last axis. *)
Definition rows_of (a : ndarray) : list (list E) :=
  match last (shape a) with
  | None => []
  | Some n => map (run n (data a)) (seq 0 (np_prod (removelast (shape a))))
  end.

(** [samples[...,lo:hi]] for natural [lo] and [hi]: the bounds are clipped
    to the axis; a 0-d array cannot be indexed. *)
Definition slice_last_axis (a : ndarray) (lo hi : nat) : result ndarray :=
  match last (shape a) with
  | None => Raise IndexError
  | Some n =>
      let lo' := Nat.min lo n in
      let hi' := Nat.min hi n in
      Ok (mk_ndarray (removelast (shape a) ++ [hi' - lo'])
            (concat (map (fun row => firstn (hi' - lo') (skipn lo' row)) (rows_of a))))
  end.

(** Modelled from the spec: [common.split_data], which
    [ListModel.split_data] calls and [common.py] does not define.  It cuts
    the last axis of [samples] into consecutive chunks, one per entry of
    [dims] and as wide as the entry says, in the order of [dims]; [start] is
    where the next chunk begins. *)
Fixpoint split_data_from (samples : ndarray) (start : nat) (dims : list nat)
  : result (list ndarray) :=
  match dims with
  | [] => Ok []
  | d :: dims' =>
      chunk ← slice_last_axis samples start (start + d);
      chunks ← split_data_from samples (start + d) dims';
      Ok (chunk :: chunks)
  end.

(** Modelled from the spec: [common.split_data(samples, dims)], absent from
    [common.py]; the chunks start at the first element of the last axis. *)
Definition split_data (samples : ndarray) (dims : list nat) : result (list ndarray) :=
  split_data_from samples 0 dims.

(** [np.atleast_2d(x)]. *)
Definition atleast_2d (a : ndarray) : ndarray :=
  match shape a with
  | [] => mk_ndarray [1; 1] (data a)
  | [n] => mk_ndarray [1; n] (data a)
  | _ => a
  end.
End Arrays.
Arguments ndarray E : clear implicits.

(** ** distributions.py *)

(** The arithmetic of the numeric library on the values of densities and
    weights: scalars and arrays alike, with whatever rounding and
    broadcasting it has.  The shapes of the operands are taken to agree, so
    that the operations always return. *)
Class Numeric (V : Type) := {
  num_zero : V;                 (* the integer [0] that [logpdf] starts from *)
  num_add : V -> V -> V;
  num_mul : V -> V -> V;
  np_exp : V -> V;
  np_log : V -> V
}.

(** A location in the store of lists. *)
Definition loc := nat.

Section Distributions.
Context {E V : Type} `{Numeric V}.

(** A dictionary of keyword arguments, in insertion order, each key once. *)
Definition kwargs : Type := list (string * V).

Fixpoint dict_get {X} (d : list (string * X)) (key : string) : option X :=
  match d with
  | [] => None
  | (k, v) :: d' => if String.eqb k key then Some v else dict_get d' key
  end.

(** [d[key] = val]: an old key keeps its place, a new one goes last. *)
Fixpoint dict_set {X} (d : list (string * X)) (key : string) (val : X) : list (string * X) :=
  match d with
  | [] => [(key, val)]
  | (k, v) :: d' =>
      if String.eqb k key then (k, val) :: d' else (k, v) :: dict_set d' key val
  end.

(** [d == {}]. *)
Definition dict_is_empty {X} (d : list (string * X)) : bool :=
  match d with
  | [] => true
  | _ :: _ => false
  end.

Definition density : Type := ndarray E -> kwargs -> result V.

(** A distribution-like object: the methods it has, and what calling it
    with parameters returns when it can be called. *)
Inductive dist := mk_dist {
  d_logpdf : option density;
  d_logpmf : option density;
  d_rvs : option (Z -> kwargs -> result (ndarray E));
  d_call : option (kwargs -> result dist)
}.

(** [m.logpdf(x, **ps[k])]: the attribute is looked up before the
    arguments are evaluated. *)
Definition call_density (method : option density) (x : ndarray E) (pars : result kwargs)
  : result V :=
  match method with
  | None => Raise AttributeError
  | Some g => p ← pars; g x p
  end.

(** [try: ... except AttributeError: ...]. *)
Definition try_except_AttributeError {X} (body handler : result X) : result X :=
  match body with
  | Raise AttributeError => handler
  | r => r
  end.

(** A value passed as [parameters] or [weights]: [None], a boolean, a
    list that nobody else holds ([PyNums], [PyDicts]), or a reference to a
    list of dictionaries in the store. *)
Inductive pyobj :=
| PyNone
| PyBool (b : bool)
| PyNums (ws : list V)
| PyDicts (ps : list kwargs)
| PyRef (l : loc).

Definition eq_None (p : pyobj) : bool :=
  match p with PyNone => true | _ => false end.

Definition eq_False (p : pyobj) : bool :=
  match p with PyBool false => true | _ => false end.

Definition is_True (p : pyobj) : bool :=
  match p with PyBool true => true | _ => false end.

(** The lists that are shared and updated in place: lists of parameter
    dictionaries and tables of replacement log-densities. *)
Record store := mk_store {
  dict_lists : gmap loc (list kwargs);
  override_lists : gmap loc (list (option density));
  next_loc : loc
}.

Definition empty_store : store := mk_store ∅ ∅ 0.

Definition new_dict_list (ps : list kwargs) (h : store) : loc * store :=
  (next_loc h,
   mk_store (<[next_loc h := ps]> (dict_lists h)) (override_lists h) (S (next_loc h))).

Definition new_override_list (fs : list (option density)) (h : store) : loc * store :=
  (next_loc h,
   mk_store (dict_lists h) (<[next_loc h := fs]> (override_lists h)) (S (next_loc h))).

(** The list of dictionaries that a value stands for; the list of numbers. *)
Definition as_dicts (h : store) (p : pyobj) : result (list kwargs) :=
  match p with
  | PyDicts ps => Ok ps
  | PyRef l => match dict_lists h !! l with Some ps => Ok ps | None => Raise TypeError end
  | _ => Raise TypeError
  end.

Definition as_nums (p : pyobj) : result (list V) :=
  match p with
  | PyNums ws => Ok ws
  | _ => Raise TypeError
  end.

Definition as_overrides (h : store) (l : loc) : result (list (option density)) :=
  match override_lists h !! l with
  | Some fs => Ok fs
  | None => Raise TypeError
  end.

(** [l[k]] for a natural [k]. *)
Definition item {X} (l : list X) (k : nat) : result X :=
  match l !! k with
  | Some x => Ok x
  | None => Raise IndexError
  end.

(** [l[1:]]. *)
Definition rest {X} (l : list X) : list X := drop 1 l.

(** *** ListModel *)

(** A submodel as it is given to the constructor: alone, or with its
    number of variates. *)
Inductive entry :=
| Bare (m : dist)
| WithDims (m : dist) (d : nat).

Record ListModel := mk_ListModel {
  N_submodels : nat;
  parameters : pyobj;
  frozen : bool;
  dims : list nat;
  submodels : list dist
}.

(** [ListModel.__init__(submodels, parameters=None, frozen=False)]. *)
Definition ListModel_init (entries : list entry) (params frozen_arg : pyobj) : ListModel :=
  mk_ListModel
    (length entries)
    params
    ((if eq_None params || eq_False params then false else true) || is_True frozen_arg)
    (map (fun s => match s with Bare _ => 1 | WithDims _ d => d end) entries)
    (map (fun s => match s with Bare m => m | WithDims m _ => m end) entries).

(** [ListModel._check_parameters(parameters=None)]; the argument is
    [params] here, [parameters] being the attribute. *)
Definition _check_parameters (self : ListModel) (params : pyobj) : result pyobj :=
  if frozen self && negb (eq_None params) then
    Raise (ValueError FrozenParametersSupplied)
  else if negb (frozen self) && eq_None params then
    Raise (ValueError UnfrozenNoParameters)
  else if frozen self && eq_None params then
    Ok (parameters self)
  else
    Ok params.

(** [ListModel._freeze_submodels(parameters)]; calling a submodel that is
    not callable is a [TypeError]. *)
Definition _freeze_submodels (h : store) (self : ListModel) (params : pyobj)
  : result (list dist) :=
  if frozen self then Raise (ValueError AlreadyFrozen)
  else
    ps ← as_dicts h params;
    mapM (fun '(submodel, pars) =>
            match d_call submodel with
            | Some freeze => freeze pars
            | None => Raise TypeError
            end)
         (zip (submodels self) ps).

(** [ListModel.split_data(samples)]. *)
Definition ListModel_split_data (self : ListModel) (samples : ndarray E)
  : result (list (ndarray E)) :=
  split_data samples (dims self).

(** *** MixtureModel *)

(** [MixtureModel.__init__(submodels, weights=None)]: the weights are the
    parameters of the [ListModel], and nothing else is passed on. *)
Definition MixtureModel_init (entries : list entry) (weights : pyobj) : ListModel :=
  ListModel_init entries weights (PyBool false).

(** [MixtureModel.__call__(weights=None, parameters=None)]. *)
Definition MixtureModel_call (h : store) (self : ListModel) (weights params : pyobj)
  : result ListModel :=
  if frozen self then Raise (ValueError AlreadyFrozen)
  else
    _ ← _check_parameters self params;
    weights ← _check_parameters self weights;
    frozen_submodels ← _freeze_submodels h self params;
    Ok (MixtureModel_init (map Bare frozen_submodels) weights).

(** [weights[0] * np.exp(self.submodels[0].<method>(x,**parameters[0]))]. *)
Definition mixture_first (method : dist -> option density) (self : ListModel)
    (x : ndarray E) (ws : list V) (ps : list kwargs) : result V :=
  w ← item ws 0;
  m ← item (submodels self) 0;
  d ← call_density (method m) x (item ps 0);
  Ok (num_mul w (np_exp d)).

(** The loop over [zip(weights[1:],self.submodels[1:],parameters[1:])]. *)
Fixpoint mixture_loop (x : ndarray E) (_pdf : V) (rows : list (V * dist * kwargs))
  : result V :=
  match rows with
  | [] => Ok _pdf
  | (w, submodel, pars) :: rows' =>
      d ← try_except_AttributeError
            (call_density (d_logpdf submodel) x (Ok pars))
            (call_density (d_logpmf submodel) x (Ok pars));
      mixture_loop x (num_add _pdf (num_mul w (np_exp d))) rows'
  end.

(** The statements of [MixtureModel.pdf] that follow the test of the
    weights.  Weights are a list of numbers and parameters a list of
    dictionaries; a value of another type that got this far is a
    [TypeError] where the list is first read. *)
Definition MixtureModel_pdf_sum (h : store) (self : ListModel) (x : ndarray E)
    (weights params : pyobj) : result V :=
  let params :=
    if eq_None params then PyDicts (replicate (length (submodels self)) []) else params in
  ws ← as_nums weights;
  ps ← as_dicts h params;
  _pdf ← try_except_AttributeError
           (mixture_first d_logpdf self x ws ps)
           (mixture_first d_logpmf self x ws ps);
  mixture_loop x _pdf (zip (zip (rest ws) (rest (submodels self))) (rest ps)).

(** [MixtureModel.pdf(x, weights=None, parameters=None)]. *)
Definition MixtureModel_pdf (h : store) (self : ListModel) (x : ndarray E)
    (weights params : pyobj) : result V :=
  _ ← _check_parameters self params;
  weights ← _check_parameters self weights;
  if eq_None weights then Raise (ValueError NoMixingWeights)
  else MixtureModel_pdf_sum h self x weights params.

(** [MixtureModel.logpdf], with the arguments of [pdf]. *)
Definition MixtureModel_logpdf (h : store) (self : ListModel) (x : ndarray E)
    (weights params : pyobj) : result V :=
  v ← MixtureModel_pdf h self x weights params;
  Ok (np_log v).

(** The random choice of a submodel per position, and the selection of the
    samples by it: calls to numpy. *)
Variable np_random_choice : nat -> list V -> Z -> result (ndarray nat).
Variable np_choose : ndarray nat -> list (ndarray E) -> result (ndarray E).

(** The statements of [MixtureModel.rvs] that follow the test of the
    weights. *)
Definition MixtureModel_rvs_draw (h : store) (self : ListModel) (size : Z)
    (weights params : pyobj) : result (ndarray E) :=
  let params :=
    if eq_None params then PyDicts (replicate (length (submodels self)) []) else params in
  ws ← as_nums weights;
  submodel_choices ← np_random_choice (length (submodels self)) ws size;
  ps ← as_dicts h params;
  submodel_samples ←
    mapM (fun '(submodel, pars) =>
            match d_rvs submodel with
            | Some draw => draw size pars
            | None => Raise AttributeError
            end)
         (zip (submodels self) ps);
  np_choose submodel_choices submodel_samples.

(** [MixtureModel.rvs(size, weights=None, parameters=None)]. *)
Definition MixtureModel_rvs (h : store) (self : ListModel) (size : Z)
    (weights params : pyobj) : result (ndarray E) :=
  _ ← _check_parameters self params;
  weights ← _check_parameters self weights;
  if eq_None weights then Raise (ValueError NoMixingWeights)
  else MixtureModel_rvs_draw h self size weights params.

(** *** JointDist *)

(** A [JointDist] is a [ListModel] with a table of replacement
    log-densities, which it holds by reference. *)
Record JointDist := mk_JointDist {
  base : ListModel;
  submodel_logpdf_replacements : loc
}.

(** [JointDist.__init__(submodels, parameters=None,
    submodel_logpdf_replacements=None, frozen=False)].  A list written at
    the call gets its place in the store, a list passed by reference is
    kept as it is. *)
Definition JointDist_init (entries : list entry) (params : pyobj)
    (replacements : option loc) (frozen_arg : pyobj) (h : store) : JointDist * store :=
  let '(params, h) :=
    match params with
    | PyDicts ps => let '(l, h') := new_dict_list ps h in (PyRef l, h')
    | _ => (params, h)
    end in
  let self := ListModel_init entries params frozen_arg in
  match replacements with
  | None =>
      let '(l, h') := new_override_list (replicate (length (submodels self)) None) h in
      (mk_JointDist self l, h')
  | Some l => (mk_JointDist self l, h)
  end.

(** [l[i]] for a Python integer [i]. *)
Definition item_at {X} (l : list X) (i : Z) : result X :=
  k ← py_index (length l) i;
  item l k.

(** [JointDist.split(selection)]. *)
Definition JointDist_split (self : JointDist) (selection : list Z) (h : store)
  : result JointDist * store :=
  let picked_entries :=
    mapM (fun i => m ← item_at (submodels (base self)) i;
                   d ← item_at (dims (base self)) i;
                   Ok (WithDims m d)) selection in
  let picked_overrides :=
    fs ← as_overrides h (submodel_logpdf_replacements self);
    mapM (fun i => item_at fs i) selection in
  if frozen (base self) then
    match (entries ← picked_entries;
           ps ← mapM (fun i => ps ← as_dicts h (parameters (base self)); item_at ps i)
                     selection;
           fs ← picked_overrides;
           Ok (entries, ps, fs)) with
    | Raise e => (Raise e, h)
    | Ok (entries, ps, fs) =>
        let '(l, h1) := new_override_list fs h in
        let '(out, h2) := JointDist_init entries (PyDicts ps) (Some l) (PyBool true) h1 in
        (Ok out, h2)
    end
  else
    match (entries ← picked_entries; fs ← picked_overrides; Ok (entries, fs)) with
    | Raise e => (Raise e, h)
    | Ok (entries, fs) =>
        let '(l, h1) := new_override_list fs h in
        let '(out, h2) := JointDist_init entries PyNone (Some l) (PyBool false) h1 in
        (Ok out, h2)
    end.

(** [JointDist.__call__(parameters=None)]: the new object is given the
    parameter list and the table of replacements of this one. *)
Definition JointDist_call (self : JointDist) (params : pyobj) (h : store)
  : result JointDist * store :=
  if frozen (base self) then (Raise (ValueError AlreadyFrozen), h)
  else
    match (params ← _check_parameters (base self) params;
           frozen_submodels ← _freeze_submodels h (base self) params;
           Ok (params, frozen_submodels)) with
    | Raise e => (Raise e, h)
    | Ok (params, frozen_submodels) =>
        let '(out, h') :=
          JointDist_init (map Bare frozen_submodels) params
            (Some (submodel_logpdf_replacements self)) (PyBool false) h in
        (Ok out, h')
    end.

(** [JointDist.submodel_logpdf(i,x,parameters={})]. *)
Definition submodel_logpdf (self : JointDist) (i : nat) (x : ndarray E) (pars : kwargs)
  : result V :=
  if frozen (base self) && negb (dict_is_empty pars) then
    Raise (ValueError FrozenParametersSupplied)
  else if negb (frozen (base self)) && dict_is_empty pars then
    Raise (ValueError UnfrozenNoParameters)
  else
    try_except_AttributeError
      (m ← item (submodels (base self)) i; call_density (d_logpdf m) x (Ok pars))
      (m ← item (submodels (base self)) i; call_density (d_logpmf m) x (Ok pars)).

(** [JointDist.submodel_pdf(i,x,parameters)]. *)
Definition submodel_pdf (self : JointDist) (i : nat) (x : ndarray E) (pars : kwargs)
  : result V :=
  l ← submodel_logpdf self i x pars;
  Ok (np_exp l).

(** The rows of [zip(x_split[1:],self.submodels[1:],
    self.submodel_logpdf_replacements[1:],parameters[1:])]. *)
Definition joint_rows (self : JointDist) (x_split : list (ndarray E))
    (fs : list (option density)) (ps : list kwargs)
  : list (ndarray E * dist * option density * kwargs) :=
  zip (zip (zip (rest x_split) (rest (submodels (base self)))) (rest fs)) (rest ps).

(** The loop of [pdf] over the submodels after the first; [i] is the
    counter of [enumerate]. *)
Fixpoint pdf_loop (self : JointDist) (i : nat)
    (rows : list (ndarray E * dist * option density * kwargs)) (_pdf : V) : result V :=
  match rows with
  | [] => Ok _pdf
  | (xi, submodel, alt_logpdf, pars) :: rows' =>
      t ← match alt_logpdf with
          | Some alt => l ← alt xi pars; Ok (np_exp l)
          | None => submodel_pdf self (i + 1) xi pars
          end;
      pdf_loop self (S i) rows' (num_mul _pdf t)
  end.

(** [JointDist.pdf(x, parameters=None)]. *)
Definition JointDist_pdf (h : store) (self : JointDist) (x : ndarray E) (params : pyobj)
  : result V :=
  params ← _check_parameters (base self) params;
  x_split ← ListModel_split_data (base self) x;
  fs ← as_overrides h (submodel_logpdf_replacements self);
  f0 ← item fs 0;
  x0 ← item x_split 0;
  ps ← as_dicts h params;
  p0 ← item ps 0;
  _pdf ← match f0 with
         | Some alt => l ← alt x0 p0; Ok (np_exp l)
         | None => submodel_pdf self 0 x0 p0
         end;
  pdf_loop self 0 (joint_rows self x_split fs ps) _pdf.

(** [parameters[i] = {}] and the like: the list in the store is updated
    in place, a list that nobody else holds is simply replaced. *)
Definition setitem_dicts (p : pyobj) (i : nat) (v : kwargs) (h : store)
  : result pyobj * store :=
  match p with
  | PyDicts ps =>
      if i <? length ps then (Ok (PyDicts (<[i := v]> ps)), h) else (Raise IndexError, h)
  | PyRef l =>
      match dict_lists h !! l with
      | Some ps =>
          if i <? length ps
          then (Ok (PyRef l),
                mk_store (<[l := <[i := v]> ps]> (dict_lists h)) (override_lists h) (next_loc h))
          else (Raise IndexError, h)
      | None => (Raise TypeError, h)
      end
  | _ => (Raise TypeError, h)
  end.

(** The loop of [logpdf_list] that empties the parameters of the
    submodels whose log-density is not replaced. *)
Fixpoint mute_loop (self : JointDist) (indices : list nat) (p : pyobj) (h : store)
  : result pyobj * store :=
  match indices with
  | [] => (Ok p, h)
  | i :: indices' =>
      match (fs ← as_overrides h (submodel_logpdf_replacements self); item fs i) with
      | Raise e => (Raise e, h)
      | Ok (Some _) => mute_loop self indices' p h
      | Ok None =>
          match setitem_dicts p i [] h with
          | (Raise e, h') => (Raise e, h')
          | (Ok p', h') => mute_loop self indices' p' h'
          end
      end
  end.

(** The loop of [logpdf_list] over the submodels after the first. *)
Fixpoint logpdf_loop (self : JointDist) (i : nat)
    (rows : list (ndarray E * dist * option density * kwargs)) (_logpdf : list V)
  : result (list V) :=
  match rows with
  | [] => Ok _logpdf
  | (xi, submodel, alt_logpdf, pars) :: rows' =>
      l ← match alt_logpdf with
          | Some alt => alt xi pars
          | None => submodel_logpdf self (i + 1) xi pars
          end;
      logpdf_loop self (S i) rows' (_logpdf ++ [l])
  end.

(** [JointDist.logpdf_list(x, parameters=None)]. *)
Definition JointDist_logpdf_list (self : JointDist) (x : ndarray E) (params : pyobj)
    (h : store) : result (list V) * store :=
  match (params ← _check_parameters (base self) params;
         x_split ← ListModel_split_data (base self) (atleast_2d x);
         Ok (params, x_split)) with
  | Raise e => (Raise e, h)
  | Ok (params, x_split) =>
      let params :=
        if eq_None params
        then PyDicts (replicate (length (submodels (base self))) [])
        else params in
      let '(muted, h') :=
        if frozen (base self)
        then mute_loop self (seq 0 (length (submodels (base self)))) params h
        else (Ok params, h) in
      (params ← muted;
       fs ← as_overrides h' (submodel_logpdf_replacements self);
       f0 ← item fs 0;
       x0 ← item x_split 0;
       ps ← as_dicts h' params;
       p0 ← item ps 0;
       l0 ← match f0 with
            | Some alt => alt x0 p0
            | None => submodel_logpdf self 0 x0 p0
            end;
       if 1 <? length (submodels (base self))
       then logpdf_loop self 0 (joint_rows self x_split fs ps) [l0]
       else Ok [l0],
       h')
  end.

(** [JointDist.logpdf(x, parameters=None)]. *)
Definition JointDist_logpdf (self : JointDist) (x : ndarray E) (params : pyobj)
    (h : store) : result V * store :=
  let '(r, h') := JointDist_logpdf_list self x params h in
  (_logpdf_list ← r; Ok (fold_left num_add _logpdf_list num_zero), h').

(** [JointDist.set_submodel_logpdf(i, f)]: the table is updated in
    place. *)
Definition set_submodel_logpdf (self : JointDist) (i : Z) (f : option density)
    (h : store) : result unit * store :=
  match (fs ← as_overrides h (submodel_logpdf_replacements self);
         k ← py_index (length fs) i;
         Ok (fs, k)) with
  | Raise e => (Raise e, h)
  | Ok (fs, k) =>
      (Ok (),
       mk_store (dict_lists h)
         (<[submodel_logpdf_replacements self := <[k := f]> fs]> (override_lists h))
         (next_loc h))
  end.

(** [JointDist.set_logpdf(listf)]: the attribute is bound to another
    list. *)
Definition set_logpdf (self : JointDist) (listf : loc) : JointDist :=
  mk_JointDist (base self) listf.

(** *** TransDist *)

Definition transform : Type := kwargs -> result kwargs.

Record TransDist := mk_TransDist {
  transform_func : option transform;
  orig_dist : dist;
  renaming_map : list (string * string);
  args : list string
}.

(** [TransDist.null_transform]: the keyword arguments as they are. *)
Definition null_transform : transform := fun kw => Ok kw.

(** [s.split(sep)] for a separator that is not empty: [skip] counts the
    characters of a separator just found that are still to be passed
    over, [cur] is the piece being read. *)
Fixpoint py_split_from (sep : string) (skip : nat) (cur : string) (s : string)
  : list string :=
  match s with
  | EmptyString => [cur]
  | String c s' =>
      match skip with
      | S skip' => py_split_from sep skip' cur s'
      | 0 =>
          if String.prefix sep s
          then cur :: py_split_from sep (String.length sep - 1) "" s'
          else py_split_from sep 0 (cur +:+ String c "") s'
      end
  end.

Definition py_split (sep s : string) : list string := py_split_from sep 0 "" s.

(** [key,val = item.split(' -> ')]. *)
Definition parse_rule (rule : string) : result (string * string) :=
  match py_split " -> " rule with
  | [key; val] => Ok (key, val)
  | _ => Raise (ValueError UnpackFailure)
  end.

(** The names of the parameters of a distribution and of a function, as
    [common.get_dist_args] and [common.get_func_args] report them;
    [common.py] has neither. *)
Variable get_dist_args : dist -> list string.
Variable get_func_args : transform -> list string.

(** The first key of [renaming] whose value is [arg]. *)
Definition first_key_of (renaming : list (string * string)) (arg : string) : option string :=
  fst <$> head (filter (fun kv => snd kv = arg) renaming).

(** [TransDist.__init__(orig_dist, transform_func=None, renaming_map=None,
    func_args=None)]. *)
Definition TransDist_init (orig : dist) (func : option transform)
    (rules : option (list string)) (func_args : option (list string)) : result TransDist :=
  renaming ← match rules with
             | None => Ok []
             | Some rules =>
                 foldl (fun acc rule => renaming ← acc;
                                        '(key, val) ← parse_rule rule;
                                        Ok (dict_set renaming key val))
                       (Ok []) rules
             end;
  let '(func, names) :=
    match func_args with
    | None =>
        let '(func, fargs) :=
          match func with
          | None => (Some null_transform, get_dist_args orig)
          | Some t => (func, get_func_args t)
          end in
        (func, map (fun arg => default arg (first_key_of renaming arg)) fargs)
    | Some names => (func, names)
    end in
  if length names =? 0 then Raise (ValueError NoArguments)
  else Ok (mk_TransDist func orig renaming names).

(** The loop of [get_orig_args] that builds [renamed_parameters]. *)
Definition renamed_parameters (self : TransDist) (params : kwargs) : kwargs :=
  foldl (fun renamed '(key, val) =>
           match dict_get (renaming_map self) key with
           | Some name => dict_set renamed name val
           | None => dict_set renamed key val
           end)
        [] params.

(** [TransDist.get_orig_args], on keyword arguments; calling [None] is a
    [TypeError]. *)
Definition get_orig_args (self : TransDist) (params : kwargs) : result kwargs :=
  match transform_func self with
  | Some t => t (renamed_parameters self params)
  | None => Raise TypeError
  end.

(** [TransDist.logpmf(x, **parameters)]. *)
Definition TransDist_logpmf (self : TransDist) (x : ndarray E) (params : kwargs)
  : result V :=
  orig_pars ← get_orig_args self params;
  call_density (d_logpmf (orig_dist self)) x (Ok orig_pars).

(** [TransDist.logpdf(x, **parameters)]. *)
Definition TransDist_logpdf (self : TransDist) (x : ndarray E) (params : kwargs)
  : result V :=
  orig_pars ← get_orig_args self params;
  call_density (d_logpdf (orig_dist self)) x (Ok orig_pars).

(** [TransDist.rvs(size, **parameters)]: a [TypeError] of the underlying
    [rvs] is raised again as a [TypeError]. *)
Definition TransDist_rvs (self : TransDist) (size : Z) (params : kwargs)
  : result (ndarray E) :=
  orig_pars ← get_orig_args self params;
  match d_rvs (orig_dist self) with
  | Some draw => draw size orig_pars
  | None => Raise AttributeError
  end.
End Distributions.

(** ** Notions the properties are stated with *)

Section StructureNotions.
Context {A : Type}.

(** Some node that the lock-step descent of [apply_f] reaches has lists
    among its inputs and inputs that are no lists. *)
Inductive mismatch_reached : list (nested A) -> Prop :=
| mismatch_here (iters : list (nested A)) :
    existsb isinstance_list iters = true ->
    forallb isinstance_list iters = false ->
    mismatch_reached iters
| mismatch_below (t : nested A) (others row : list (nested A)) :
    forallb isinstance_list (t :: others) = true ->
    In row (zip_star (items_of t) (map items_of others)) ->
    mismatch_reached row ->
    mismatch_reached (t :: others).

Fixpoint nested_forallb (P : A -> bool) (t : nested A) : bool :=
  match t with
  | Leaf a => P a
  | PyList items => forallb (nested_forallb P) items
  end.
End StructureNotions.

Section SliceNotions.
Context {E : Type}.

(** The only row of a two-dimensional array that has one. *)
Definition sole_row (F : ndarray E) : result (ndarray E) :=
  match shape F with
  | [1; _] => take_row F 0
  | _ => Raise IndexError
  end.
End SliceNotions.

Section DistributionNotions.
Context {E V : Type} `{Numeric V}.

(** The log-density of a submodel: its [logpdf], and its [logpmf] when it
    has no [logpdf]. *)
Definition native_logdensity (m : @dist E V) (x : ndarray E) (pars : @kwargs V) : result V :=
  match d_logpdf m with
  | Some g => g x pars
  | None =>
      match d_logpmf m with
      | Some g => g x pars
      | None => Raise AttributeError
      end
  end.

(** The sum of [w * exp(l)] over the pairs [(w, l)], from the first to the
    last; an empty sum has no value. *)
Definition weighted_sum (terms : list (V * V)) : option V :=
  match terms with
  | [] => None
  | (w, l) :: terms' =>
      Some (foldl (fun acc '(w, l) => num_add acc (num_mul w (np_exp l)))
                  (num_mul w (np_exp l)) terms')
  end.

(** The name that [get_orig_args] passes on for the keyword [key]: the
    right-hand side of the rule whose left-hand side is [key], else [key]
    itself. *)
Definition forward_name (self : @TransDist E V) (key : string) : string :=
  default key (dict_get (renaming_map self) key).

(** The value of the last pair of [pairs] whose key is [key]. *)
Definition last_value {X} (pairs : list (string * X)) (key : string) : option X :=
  snd <$> last (filter (fun kv => fst kv = key) pairs).

(** The rename map read from right to left, as the design document has
    it: a keyword that is the right-hand side of a rule goes back to the
    left-hand side of the rule, another one is kept. *)
Definition reverse_renamed_parameters (self : @TransDist E V) (params : @kwargs V)
  : @kwargs V :=
  foldl (fun renamed '(key, val) =>
           match first_key_of (renaming_map self) key with
           | Some name => dict_set renamed name val
           | None => dict_set renamed key val
           end)
        [] params.

(** [get_orig_args] as the design document has it: the rename map in
    reverse, then the transform function. *)
Definition get_orig_args_reversed (self : @TransDist E V) (params : @kwargs V)
  : result (@kwargs V) :=
  match transform_func self with
  | Some t => t (reverse_renamed_parameters self params)
  | None => Raise TypeError
  end.

(** *** A distribution in the style of [scipy.stats] *)

(** The frozen distribution: its log-density takes no keyword. *)
Definition frozen_atom (g : ndarray E -> @kwargs V -> V) (pars : @kwargs V) : @dist E V :=
  mk_dist
    (Some (fun x kw => if dict_is_empty kw then Ok (g x pars) else Raise TypeError))
    None None None.

(** The distribution itself: its log-density takes the parameters as
    keywords, and calling it with parameters freezes it. *)
Definition atom (g : ndarray E -> @kwargs V -> V) : @dist E V :=
  mk_dist
    (Some (fun x kw => Ok (g x kw)))
    None None
    (Some (fun pars => Ok (frozen_atom g pars))).

(** *** A joint distribution of one submodel, frozen by calling it *)

Section Scenario.
Variable g : ndarray E -> @kwargs V -> V.
Variable v : V.
Variable e : E.

Definition one_parameter : @kwargs V := [("loc", v)].

Definition one_point : ndarray E := mk_ndarray [1; 1] [e].

(** [J = JointDist([atom])]. *)
Definition unfrozen_joint : @JointDist E V * @store E V :=
  JointDist_init [Bare (atom g)] PyNone None (PyBool false) empty_store.

(** [F = J([{'loc': v}])]. *)
Definition frozen_joint : result (@JointDist E V) * @store E V :=
  JointDist_call (fst unfrozen_joint) (PyDicts [one_parameter]) (snd unfrozen_joint).
End Scenario.
End DistributionNotions.

(** ** Values for the examples *)

(** The real numbers as the values of densities and weights. *)
Global Instance real_numeric : Numeric R :=
  {| num_zero := 0%R; num_add := Rplus; num_mul := Rmult; np_exp := exp; np_log := ln |}.

(** The log-density of a normal variable of unit variance, its constant
    left out, at the first element of [x]. *)
Definition gauss (x : ndarray R) (kw : @kwargs R) : result R :=
  match data x, dict_get kw "loc" with
  | e :: _, Some mu => Ok (- ((e - mu) * (e - mu)) / 2)%R
  | _, _ => Raise TypeError
  end.

(** A continuous distribution, which has [logpdf], and a discrete one, which
    has [logpmf] only. *)
Definition continuous_dist : @dist R R := mk_dist (Some gauss) None None None.

Definition discrete_dist : @dist R R := mk_dist None (Some gauss) None None.

(** A mixture of the two, not frozen. *)
Definition two_component_mixture : @ListModel R R :=
  MixtureModel_init [Bare continuous_dist; Bare discrete_dist] PyNone.

(** The sum of the leaves that [apply_f] passes. *)
Definition sum_of (args : list nat) : result nat := Ok (foldr Nat.add 0 args).


(** Realisation data of two submodels, the second one nested: two
    realisations each. *)
Definition nested_data : nested (ndarray nat) :=
  PyList [Leaf (mk_ndarray [2; 2] [1; 2; 3; 4]);
          PyList [Leaf (mk_ndarray [2; 1; 3] [1; 2; 3; 4; 5; 6])]].

(** A distribution with no method. *)
Definition no_methods : @dist Z Z := mk_dist None None None None.

(** The transform function [def t(b): return {'b': b}]: any other keyword
    is a [TypeError]. *)
Definition takes_b : @transform Z := fun kw =>
  match kw with
  | [(name, val)] => if String.eqb name "b" then Ok [("b", val)] else Raise TypeError
  | _ => Raise TypeError
  end.

(** The names of its parameters, for every function of the examples. *)
Definition declared_names (t : @transform Z) : list string := ["b"].

(** A composite of a submodel of one variate and a submodel of two, and an
    array of two realisations of three variates. *)
Definition two_submodels : @ListModel Z Z :=
  MixtureModel_init [WithDims no_methods 1; WithDims no_methods 2] PyNone.

Definition two_by_three : ndarray Z := mk_ndarray [2; 3] [1; 2; 3; 4; 5; 6]%Z.

(** ** The rest of common.py *)

Section DataStructure.
Context {E : Type}.

(** What [get_data_structure] reports at a leaf: the shape of an array, or,
    when [list] is applied to one shape, the length of an axis. *)
Inductive structure_item :=
| ShapeOf (s : list nat)
| AxisLength (n : nat).

(** [get_data_structure(x)]: [list] copies a list and turns a shape, which
    is a tuple, into the list of its entries. *)
Definition get_data_structure (x : nested (ndarray E)) : result (nested structure_item) :=
  v ← apply_f (unary (fun A => Ok (ShapeOf (shape A)))) [x];
  match v with
  | PyList items => Ok (PyList items)
  | Leaf (ShapeOf s) => Ok (PyList (map (fun n => Leaf (AxisLength n)) s))
  | Leaf (AxisLength _) => Raise TypeError
  end.
End DataStructure.

(** ** More notions the properties are stated with *)

Section MapNotions.
Context {A B : Type}.

(** The structure with [g] applied at every leaf. *)
Fixpoint nested_map (g : A -> B) (t : nested A) : nested B :=
  match t with
  | Leaf a => Leaf (g a)
  | PyList items => PyList (map (nested_map g) items)
  end.
End MapNotions.

(** The nesting of a structure: its lists, with nothing at the leaves. *)
Definition nesting {A : Type} (t : nested A) : nested unit := nested_map (fun _ => tt) t.

Section MoreSliceNotions.
Context {E : Type}.

Fixpoint nested_existsb {A : Type} (P : A -> bool) (t : nested A) : bool :=
  match t with
  | Leaf a => P a
  | PyList items => existsb (nested_existsb P) items
  end.

(** The array can be flattened: it has an axis, and its last axis has a
    length that is not 0. *)
Definition flattenable (A : ndarray E) : bool := is_ok (almost_flatten A).

(** The number of rows of the flattened array, 0 when there is none. *)
Definition flat_rows (A : ndarray E) : nat :=
  match almost_flatten A with
  | Ok F => match shape F with r :: _ => r | [] => 0 end
  | Raise _ => 0
  end.

(** [i] is an index of a row of the flattened array as Python takes it:
    from the front, or from the end when it is negative. *)
Definition index_in_range (i : Z) (A : ndarray E) : bool :=
  flattenable A && ((- Z.of_nat (flat_rows A) <=? i) && (i <? Z.of_nat (flat_rows A)))%Z.



Definition two_dimensional (G : ndarray E) : bool :=
  match shape G with
  | [_; _] => true
  | _ => false
  end.
End MoreSliceNotions.

Section FreezeNotions.
Context {E V : Type}.

(** The log-density that the composites evaluate for a submodel: its
    [logpdf], and its [logpmf] when that raises [AttributeError]. *)
Definition density_of (m : @dist E V) (x : ndarray E) (pars : @kwargs V) : result V :=
  try_except_AttributeError
    (call_density (d_logpdf m) x (Ok pars))
    (call_density (d_logpmf m) x (Ok pars)).

(** Calling [m] with the parameters [pars] returns [m'], and [m'] with no
    parameters has the log-density of [m] with [pars]. *)
Definition frozen_from (m : @dist E V) (pars : @kwargs V) (m' : @dist E V) : Prop :=
  (exists freeze, d_call m = Some freeze /\ freeze pars = Ok m')
  /\ forall x, density_of m' x [] = density_of m x pars.
(** Calling a submodel with its parameters, as [_freeze_submodels] does. *)
Definition freeze_pair : @dist E V * @kwargs V -> result (@dist E V) :=
  fun '(submodel, pars) =>
    match d_call submodel with
    | Some freeze => freeze pars
    | None => Raise TypeError
    end.
End FreezeNotions.

(** ** More values for the examples *)

(** A log-density that always returns: that of [gauss], and 0 where [gauss]
    raises. *)
Definition shifted (x : ndarray R) (kw : @kwargs R) : R :=
  match gauss x kw with
  | Ok l => l
  | Raise _ => 0%R
  end.

(** A mixture of two distributions that can be called, not frozen, and the
    weights and parameters to call it with. *)
Definition callable_mixture : @ListModel R R :=
  MixtureModel_init [Bare (atom shifted); Bare (atom shifted)] PyNone.

Definition some_weights : @pyobj R := PyNums [(3 / 10)%R; (7 / 10)%R].

Definition some_parameters : list (@kwargs R) := [[("loc", 0%R)]; [("loc", 2%R)]].

Section JointNotions.
Context {E V : Type}.

(** The parameter list of a frozen [JointDist] after the loop of
    [logpdf_list] that empties it: the dictionary of a submodel is kept
    where the table has a replacement for its log-density. *)
Definition muted (fs : list (option (@density E V))) (ps : list (@kwargs V))
  : list (@kwargs V) :=
  zip_with (fun f p => match f with None => [] | Some _ => p end) fs ps.

(** A submodel whose log-density is not replaced has a dictionary that is
    not empty. *)
Definition has_parameters (f : option (@density E V)) (p : @kwargs V) : Prop :=
  f = None -> dict_is_empty p = false.
End JointNotions.

(** A joint distribution of two distributions that can be called, not
    frozen, in a store of its own. *)
Definition callable_joint : @JointDist R R * @store R R :=
  JointDist_init [Bare (atom shifted); Bare (atom shifted)] PyNone None (PyBool false)
    empty_store.

(** A replacement log-density, and one realisation of two variates. *)
Definition constant_density : @density R R := fun _ _ => Ok 0%R.

Definition two_points : ndarray R := mk_ndarray [1; 2] [0%R; 1%R].

(** ** Notions for the rename rules *)

(** [sep.join(pieces)]. *)
Fixpoint py_join (sep : string) (pieces : list string) : string :=
  match pieces with
  | [] => ""
  | p :: rest_pieces =>
      match rest_pieces with
      | [] => p
      | _ :: _ => p +:+ sep +:+ py_join sep rest_pieces
      end
  end.

(** The space character. *)
Definition space : Ascii.ascii := Ascii.Ascii false false false false false true false false.

(** The character [c] occurs in [s]. *)
Fixpoint mentions (c : Ascii.ascii) (s : string) : bool :=
  match s with
  | EmptyString => false
  | String c' s' => Ascii.eqb c c' || mentions c s'
  end.

(** The dictionary that [TransDist.__init__] builds from the rules it has
    split into a key and a value. *)
Definition rules_dict (kvs : list (string * string)) : list (string * string) :=
  foldl (fun renaming kv => dict_set renaming (fst kv) (snd kv)) [] kvs.

(** The keys and the values of a dictionary. *)
Definition dict_keys {X} (d : list (string * X)) : list string := map fst d.

Definition dict_values {X} (d : list (string * X)) : list X := map snd d.

Section TransDistNotions.
Context {E V : Type}.

(** The argument names that [TransDist.__init__] reads when none are
    given: the ones of the transform function, or of the distribution
    itself when there is no transform function. *)
Definition inspected_args (get_dist_args : @dist E V -> list string)
    (get_func_args : @transform V -> list string)
    (orig : @dist E V) (func : option (@transform V)) : list string :=
  match func with
  | None => get_dist_args orig
  | Some t => get_func_args t
  end.
End TransDistNotions.

(** The names of the parameters of a distribution, for every distribution
    of the examples. *)
Definition loc_scale_names (d : @dist Z Z) : list string := ["loc"; "scale"].

Section SliceValues.
Context {E : Type}.

(** The length of the last axis, 0 for an array with no axis. *)
Definition last_axis (A : ndarray E) : nat := default 0 (last (shape A)).

(** The [k]-th row of the flattened array: the [k]-th stretch of as many
    elements as the last axis has. *)
Definition flat_row (A : ndarray E) (k : nat) : list E :=
  take (last_axis A) (drop (k * last_axis A) (data A)).

(** [i] is an index of a row of the flattened array, from the front or
    from the end, and not [-1], after which no index comes. *)
Definition sliceable_index (i : Z) (A : ndarray E) : bool :=
  index_in_range i A && negb (i =? -1)%Z.

(** The row that the index [i] stands for: a negative index counts from
    the end of the rows, which are as many as the product of the leading
    axes. *)
Definition row_number (i : Z) (A : ndarray E) : nat :=
  if (i <? 0)%Z then Z.to_nat (i + Z.of_nat (np_prod (removelast (shape A))))
  else Z.to_nat i.

(** The row [i] as a one-dimensional array, and as a two-dimensional
    array of one row. *)
Definition single_leaf (i : Z) (A : ndarray E) : ndarray E :=
  mk_ndarray [last_axis A] (flat_row A (row_number i A)).

Definition range_leaf (i : Z) (A : ndarray E) : ndarray E :=
  mk_ndarray [1; last_axis A] (flat_row A (row_number i A)).

(** The first [c] elements of a row, each as an array with no axis. *)
Definition scalars_of (c : nat) (row : list E) : list (nested (ndarray E)) :=
  map (fun j => Leaf (mk_ndarray [] (take 1 (drop j row)))) (seq 0 c).

(** The row [i] of every leaf: of a list of arrays, leaf by leaf; of one
    array alone, as the list of its elements. *)
Definition single_slice (i : Z) (x : nested (ndarray E)) : nested (ndarray E) :=
  match x with
  | PyList _ => nested_map (single_leaf i) x
  | Leaf A => PyList (scalars_of (last_axis A) (flat_row A (row_number i A)))
  end.

(** The row [i] of every leaf as a range of one row: of a list of arrays,
    leaf by leaf; of one array alone, as the list of this one row. *)
Definition range_slice (i : Z) (x : nested (ndarray E)) : nested (ndarray E) :=
  match x with
  | PyList _ => nested_map (range_leaf i) x
  | Leaf A => PyList [Leaf (single_leaf i A)]
  end.

(** The values of a structure: the elements of its leaves, in order. *)
Fixpoint values_of (t : nested (ndarray E)) : list E :=
  match t with
  | Leaf a => data a
  | PyList items => flat_map values_of items
  end.

(** The elements of every leaf, without the shapes. *)
Definition leaf_values (t : nested (ndarray E)) : nested (list E) :=
  nested_map (fun a => data a) t.
End SliceValues.


(** * Properties *)

(** ** The structural map *)

(** Induction over nested lists, with the property at hand for every item of
    a list. *)
Lemma nested_induction {A : Type} (P : nested A -> Prop) :
  (forall a, P (Leaf a)) ->
  (forall items, Forall P items -> P (PyList items)) ->
  forall t, P t.
Proof.
  intros at_leaf at_list. fix IH 1. intros [a|items].
  - apply at_leaf.
  - apply at_list. induction items as [|c items IHitems].
    + constructor.
    + constructor; [apply IH | exact IHitems].
Qed.

Section StructuralMapFacts.
Context {A B : Type}.
Variable f : list A -> result B.

(** The list branch of [apply_f] is the loop over the tuples of [zip]. *)
Lemma apply_f_from_list items others :
  apply_f_from f (PyList items) others =
    if forallb isinstance_list others
    then rs ← map_star f (zip_star items (map items_of others)); Ok (PyList rs)
    else Raise (ValueError NestedListInconsistency).
Proof.
  simpl. destruct (forallb isinstance_list others); [|reflexivity].
  f_equal. generalize (map items_of others) as rest.
  induction items as [|c items IH]; intros rest; simpl; [reflexivity|].
  destruct (heads_tails rest) as [[hs ts]|]; simpl; [|reflexivity].
  rewrite IH. reflexivity.
Qed.

(** With one structure, the tuples are the items one by one. *)
Lemma apply_f_one_list items :
  apply_f f [PyList items] =
    rs ← map_star f (map (fun c => [c]) items); Ok (PyList rs).
Proof.
  unfold apply_f. rewrite apply_f_from_list. simpl. do 2 f_equal.
  induction items as [|c items IH]; simpl; congruence.
Qed.

Lemma map_star_raises rows row :
  In row rows -> (exists e, apply_f f row = Raise e) -> exists e, map_star f rows = Raise e.
Proof.
  induction rows as [|r rows IH]; simpl; [tauto|].
  intros [->|Hin] Hrow.
  - destruct Hrow as [e ->]. eauto.
  - destruct (apply_f f r); simpl; eauto.
    destruct (IH Hin Hrow) as [e ->]. simpl. eauto.
Qed.

(** A reached mismatch makes the call fail, whatever [f] does. *)
Lemma mismatch_raises iters :
  mismatch_reached iters -> exists e, apply_f f iters = Raise e.
Proof.
  induction 1 as [iters Hany Hall | t others row Hall Hin Hrow IH].
  - destruct iters as [|t others]; [discriminate|]. simpl in *.
    destruct t as [a|items]; simpl in *.
    + rewrite Hany. eauto.
    + rewrite Hall. eauto.
  - simpl in Hall. apply andb_true_iff in Hall as [Ht Hothers].
    destruct t as [a|items]; [discriminate|]. simpl in Hin.
    unfold apply_f. rewrite apply_f_from_list, Hothers.
    destruct (map_star_raises _ _ Hin IH) as [e ->]. simpl. eauto.
Qed.

Hypothesis f_total : forall args, is_ok (f args) = true.

(** With a function that raises nothing, the only exception is the one for
    inconsistent structures. *)
Lemma apply_f_from_only_inconsistency t :
  forall others e,
    apply_f_from f t others = Raise e -> e = ValueError NestedListInconsistency.
Proof.
  induction t as [a|items IH] using nested_induction; intros others e.
  - simpl. destruct (existsb isinstance_list others); [congruence|].
    specialize (f_total (a :: leaves_of others)).
    destruct (f (a :: leaves_of others)); simpl; [discriminate|discriminate].
  - rewrite apply_f_from_list.
    destruct (forallb isinstance_list others); [|congruence].
    generalize (map items_of others) as rest.
    induction IH as [|c items Hc _ IHitems]; intros rest; simpl; [discriminate|].
    destruct (heads_tails rest) as [[hs ts]|]; simpl; [|discriminate].
    destruct (apply_f_from f c hs) eqn:Hch; simpl.
    + specialize (IHitems ts).
      destruct (map_star f (zip_star items ts)); simpl in *; [discriminate|].
      intros Heq. apply IHitems. congruence.
    + intros Heq. apply (Hc hs). congruence.
Qed.

Lemma mismatch_raises_inconsistency iters :
  mismatch_reached iters -> apply_f f iters = Raise (ValueError NestedListInconsistency).
Proof.
  intros Hm. destruct (mismatch_raises iters Hm) as [e He].
  destruct iters as [|t others]; simpl in *.
  - inversion Hm; discriminate.
  - rewrite He. f_equal. eapply apply_f_from_only_inconsistency; eauto.
Qed.
End StructuralMapFacts.

(** On structures of one shape the map returns the structure of the values
    of the function. *)
Example apply_f_matching_shapes :
  apply_f sum_of [PyList [Leaf 1; PyList [Leaf 2]]; PyList [Leaf 10; PyList [Leaf 3; Leaf 4]]]
  = Ok (PyList [Leaf 11; PyList [Leaf 5]]).
Proof. reflexivity. Qed.

(** ** Slices of realisation data *)

Section Slices.
Context {E : Type}.
Implicit Types (A F : ndarray E) (t : nested (ndarray E)).

Lemma last_of_nonempty (size : list Z) : size <> [] -> exists n, last size = Some n.
Proof.
  intros Hne. destruct (last size) eqn:Hl; eauto.
  apply last_None in Hl. congruence.
Qed.

Lemma get_data_slice_range_count (x : nested (ndarray E) * list Z) (i j : Z) d c m :
  get_data_slice x i (Some j) = Ok (d, (c, m)) -> c = (j - i)%Z.
Proof.
  destruct x as [data size]. unfold get_data_slice.
  destruct (apply_f _ [data]) as [v|]; simpl; [|discriminate].
  destruct (py_list v); simpl; [|discriminate].
  destruct (last_of size); simpl; [|discriminate]. congruence.
Qed.

Lemma get_data_slice_single_count (x : nested (ndarray E) * list Z) (i : Z) d c m :
  get_data_slice x i None = Ok (d, (c, m)) -> c = 1%Z.
Proof.
  destruct x as [data size]. unfold get_data_slice.
  destruct (apply_f _ [data]) as [v|]; simpl; [|discriminate].
  destruct (py_list v); simpl; [|discriminate].
  destruct (last_of size); simpl; [|discriminate]. congruence.
Qed.
End Slices.

(** The second realisation of [nested_data], as a single index and as the
    range of one row. *)
Example get_data_slice_second_realisation :
  get_data_slice (nested_data, [2%Z; 5%Z]) 1 None
  = Ok (PyList [Leaf (mk_ndarray [2] [3; 4]); PyList [Leaf (mk_ndarray [3] [4; 5; 6])]],
        (1%Z, 5%Z))
  /\ get_data_slice (nested_data, [2%Z; 5%Z]) 1 (Some 2%Z)
  = Ok (PyList [Leaf (mk_ndarray [1; 2] [3; 4]); PyList [Leaf (mk_ndarray [1; 3] [4; 5; 6])]],
        (1%Z, 5%Z)).
Proof. split; reflexivity. Qed.

(** An index counted from the end is another matter: the last row as a
    single index, no row at all as the range from [-1] to [0], and a count
    of 1 all the same. *)
Example get_data_slice_from_the_end :
  get_data_slice (nested_data, [2%Z; 5%Z]) (-1) None
  = Ok (PyList [Leaf (mk_ndarray [2] [3; 4]); PyList [Leaf (mk_ndarray [3] [4; 5; 6])]],
        (1%Z, 5%Z))
  /\ get_data_slice (nested_data, [2%Z; 5%Z]) (-1) (Some 0%Z)
  = Ok (PyList [Leaf (mk_ndarray [0; 2] []); PyList [Leaf (mk_ndarray [0; 3] [])]],
        (1%Z, 5%Z)).
Proof. split; reflexivity. Qed.

(** ** Splitting data by submodel *)

Section SplitData.
Context {E : Type}.
Implicit Types (x c : ndarray E) (row : list E).

Lemma run_length w (l : list E) k :
  (k + 1) * w <= length l -> length (run w l k) = w.
Proof. intros Hk. unfold run. rewrite length_take, length_drop. lia. Qed.

Lemma run_app_succ w (p l : list E) k :
  length p = w -> run w (p ++ l) (S k) = run w l k.
Proof.
  intros Hp. unfold run. f_equal.
  replace (S k * w) with (length p + k * w) by lia.
  rewrite <- drop_drop, drop_app_length. reflexivity.
Qed.

Lemma run_app_zero w (p l : list E) :
  length p = w -> run w (p ++ l) 0 = p.
Proof.
  intros Hp. unfold run. simpl. rewrite drop_0, take_app_length'; auto.
Qed.

(** The runs of a concatenation of pieces of one length are the pieces. *)
Lemma runs_of_concat w (pieces : list (list E)) :
  Forall (fun p => length p = w) pieces ->
  map (run w (concat pieces)) (seq 0 (length pieces)) = pieces.
Proof.
  induction 1 as [|p pieces Hp _ IH]; simpl; [reflexivity|].
  rewrite run_app_zero by assumption. f_equal.
  rewrite <- seq_shift, map_map.
  rewrite <- IH at 2. apply map_ext. intros k. apply run_app_succ; assumption.
Qed.

Lemma np_prod_snoc (l : list nat) n : np_prod (l ++ [n]) = np_prod l * n.
Proof. unfold np_prod. induction l as [|m l IH]; simpl; [lia|]. rewrite IH. lia. Qed.

Lemma shape_split (s : list nat) n :
  last s = Some n -> s = removelast s ++ [n].
Proof.
  intros Hl. destruct (decide (s = [])) as [->|Hne]; [discriminate|].
  rewrite (app_removelast_last n Hne) at 1. f_equal. f_equal.
  destruct s as [|a s] using rev_ind; [congruence|].
  rewrite last_snoc in Hl. rewrite List.last_last. congruence.
Qed.

(** Every row of a well-shaped array is as long as the last axis. *)
Lemma rows_of_lengths x n :
  well_shaped x -> last (shape x) = Some n ->
  Forall (fun row => length row = n) (rows_of x).
Proof.
  unfold well_shaped, rows_of. intros Hw Hl. rewrite Hl.
  rewrite (shape_split _ _ Hl), np_prod_snoc in Hw.
  apply Forall_forall. intros row Hin. apply list_elem_of_In, in_map_iff in Hin.
  destruct Hin as (k & <- & Hk). apply in_seq in Hk.
  apply run_length. rewrite Hw. apply Nat.mul_le_mono_r. lia.
Qed.

(** A slice of the last axis keeps the other axes and cuts every row. *)
Lemma slice_last_axis_rows x lo hi n :
  well_shaped x -> last (shape x) = Some n ->
  exists c, slice_last_axis x lo hi = Ok c
    /\ removelast (shape c) = removelast (shape x)
    /\ rows_of c = map (fun row => take (hi - lo) (drop lo row)) (rows_of x).
Proof.
  intros Hw Hl. unfold slice_last_axis. rewrite Hl.
  eexists. split; [reflexivity|]. split; [apply removelast_last|].
  pose proof (rows_of_lengths x n Hw Hl) as Hrows.
  set (w := Nat.min hi n - Nat.min lo n).
  assert (Hsame : map (fun row => take w (drop (Nat.min lo n) row)) (rows_of x)
                  = map (fun row => take (hi - lo) (drop lo row)) (rows_of x)).
  { apply Forall_fmap_ext_1. eapply Forall_impl; [exact Hrows|].
    intros row Hrow. simpl in Hrow. subst w.
    destruct (decide (lo <= n)) as [Hle|Hgt].
    - rewrite (Nat.min_l lo n) by lia.
      destruct (decide (hi <= n)).
      + rewrite (Nat.min_l hi n) by lia. reflexivity.
      + rewrite (Nat.min_r hi n) by lia.
        rewrite !take_ge; auto; rewrite length_drop; lia.
    - rewrite (Nat.min_r lo n) by lia.
      rewrite !drop_ge by lia. rewrite !take_nil. reflexivity. }
  rewrite <- Hsame.
  unfold rows_of at 1. simpl.
  rewrite last_snoc, removelast_last.
  assert (Hlen : length (map (fun row => take w (drop (Nat.min lo n) row)) (rows_of x))
                 = np_prod (removelast (shape x))).
  { rewrite length_map. unfold rows_of. rewrite Hl, length_map, length_seq. reflexivity. }
  rewrite <- Hlen. apply runs_of_concat.
  apply Forall_fmap. eapply Forall_impl; [exact Hrows|].
  intros row Hrow. simpl in *. rewrite length_take, length_drop. lia.
Qed.

Lemma split_data_from_chunks x n (sizes : list nat) :
  well_shaped x -> last (shape x) = Some n ->
  forall start, exists chunks,
    split_data_from x start sizes = Ok chunks
    /\ length chunks = length sizes
    /\ forall k d, sizes !! k = Some d ->
         exists c, chunks !! k = Some c
           /\ removelast (shape c) = removelast (shape x)
           /\ rows_of c =
                map (fun row => take d (drop (start + sum_list (take k sizes)) row))
                    (rows_of x).
Proof.
  intros Hw Hl. induction sizes as [|d0 sizes IH]; intros start; simpl.
  - exists []. split; [reflexivity|]. split; [reflexivity|]. intros k d Hk. discriminate.
  - destruct (slice_last_axis_rows x start (start + d0) n Hw Hl) as (c0 & -> & Hs0 & Hc0).
    destruct (IH (start + d0)) as (chunks & -> & Hlen & Hchunks). simpl.
    exists (c0 :: chunks). split; [reflexivity|]. split; [simpl; congruence|].
    intros [|k] d Hk; simpl in *.
    + inversion Hk; subst. exists c0. split; [reflexivity|]. split; [exact Hs0|].
      rewrite Hc0. apply map_ext. intros row. do 2 f_equal; lia.
    + destruct (Hchunks k d Hk) as (c & Hc & Hs & Hrows).
      exists c. split; [exact Hc|]. split; [exact Hs|].
      rewrite Hrows. apply map_ext. intros row. do 2 f_equal. lia.
Qed.

(** C1.  For a composite whose submodels have the numbers of variates
    [dims] and a well-shaped array [x] of at least one axis, [split_data]
    returns as many arrays as there are submodels; the [k]-th one has the
    leading axes of [x] and, in every row, the [d] elements of the row of
    [x] that follow the elements of the submodels before it, [d] being the
    [k]-th entry of [dims]. *)
Theorem split_data_consecutive_chunks {V : Type} (self : @ListModel E V) (x : ndarray E) :
  well_shaped x ->
  shape x <> [] ->
  exists chunks,
    ListModel_split_data self x = Ok chunks
    /\ length chunks = length (dims self)
    /\ forall k d, dims self !! k = Some d ->
         exists c, chunks !! k = Some c
           /\ removelast (shape c) = removelast (shape x)
           /\ rows_of c =
                map (fun row => take d (drop (sum_list (take k (dims self))) row))
                    (rows_of x).
Proof.
  intros Hw Hne.
  destruct (last (shape x)) as [n|] eqn:Hl; [|apply last_None in Hl; congruence].
  apply (split_data_from_chunks x n (dims self) Hw Hl 0).
Qed.
End SplitData.

(** Two realisations of three variates, for a submodel of one variate and a
    submodel of two. *)
Lemma split_data_consecutive_chunks_witness :
  exists chunks,
    ListModel_split_data two_submodels two_by_three = Ok chunks
    /\ length chunks = 2.
Proof.
  destruct (split_data_consecutive_chunks two_submodels two_by_three
              eq_refl ltac:(discriminate))
    as (chunks & Hsplit & Hlen & _).
  exists chunks. split; [exact Hsplit | exact Hlen].
Defined.

(** What the chunks are. *)
Example split_data_two_by_three :
  ListModel_split_data two_submodels two_by_three
  = Ok [mk_ndarray [2; 1] [1; 4]%Z; mk_ndarray [2; 2] [2; 3; 5; 6]%Z].
Proof. reflexivity. Qed.

(** ** Frozen and unfrozen composites *)

Section CheckParameters.
Context {E V : Type}.
Implicit Types (self : @ListModel E V) (p : @pyobj V).

Lemma eq_None_true p : eq_None p = true <-> p = PyNone.
Proof. destruct p; simpl; split; congruence. Qed.

Lemma eq_None_false p : eq_None p = false <-> p <> PyNone.
Proof. destruct p; simpl; split; congruence. Qed.

(** C5.  [_check_parameters] raises an exception of the kind
    FrozenStateViolation exactly when the composite is frozen and the
    argument is not [None], or the composite is not frozen and the argument
    is [None]; it raises no other exception; a frozen composite given [None]
    gets its stored parameters, and a composite that is not frozen gets the
    argument back. *)
Theorem check_parameters_cases self p :
  ((exists e, _check_parameters self p = Raise e /\ kind_of e = FrozenStateViolation)
     <-> (frozen self = true /\ p <> PyNone) \/ (frozen self = false /\ p = PyNone))
  /\ (forall e, _check_parameters self p = Raise e -> kind_of e = FrozenStateViolation)
  /\ (frozen self = true -> p = PyNone -> _check_parameters self p = Ok (parameters self))
  /\ (frozen self = false -> p <> PyNone -> _check_parameters self p = Ok p).
Proof.
  unfold _check_parameters.
  destruct (frozen self) eqn:Hf, (eq_None p) eqn:Hp; simpl;
    [apply eq_None_true in Hp | apply eq_None_false in Hp
    |apply eq_None_true in Hp | apply eq_None_false in Hp].
  all: repeat split; try congruence; try (intros; simplify_eq; reflexivity).
  all: try (intros [e [? ?]]; congruence).
  all: try (intros [[? ?]|[? ?]]; congruence).
  all: try (intros _; eexists; split; reflexivity).
  all: try (right; split; congruence); try (left; split; congruence).
Qed.

(** C10.  For a mixture as its constructor builds it, with any stored
    weights and any arguments of a call: a frozen mixture has stored weights
    that are not [None]; the two calls of [_check_parameters] that precede
    the test of the weights either raise an exception of the kind
    FrozenStateViolation or yield weights that are not [None] (the stored
    ones when frozen, the argument otherwise); so [pdf] and [rvs] are what
    they are without the test. *)
Theorem mixture_weights_guard_unreachable `{Numeric V}
    (np_random_choice : nat -> list V -> Z -> result (ndarray nat))
    (np_choose : ndarray nat -> list (ndarray E) -> result (ndarray E))
    (entries : list (@entry E V)) (stored : @pyobj V) (h : @store E V)
    (x : ndarray E) (size : Z) (weights params : @pyobj V) :
  let self := MixtureModel_init entries stored in
  let at_guard := _ ← _check_parameters self params; _check_parameters self weights in
  (frozen self = true -> parameters self <> PyNone)
  /\ match at_guard with
     | Raise e =>
         kind_of e = FrozenStateViolation
         /\ (frozen self = false -> weights = PyNone \/ params = PyNone)
         /\ (frozen self = true -> weights <> PyNone \/ params <> PyNone)
     | Ok w =>
         w <> PyNone
         /\ (frozen self = true -> w = parameters self)
         /\ (frozen self = false -> w = weights)
     end
  /\ MixtureModel_pdf h self x weights params =
       (_ ← _check_parameters self params;
        w ← _check_parameters self weights;
        MixtureModel_pdf_sum h self x w params)
  /\ MixtureModel_rvs np_random_choice np_choose h self size weights params =
       (_ ← _check_parameters self params;
        w ← _check_parameters self weights;
        MixtureModel_rvs_draw np_random_choice np_choose h self size w params).
Proof.
  intros self at_guard. subst self at_guard.
  unfold MixtureModel_pdf, MixtureModel_rvs, _check_parameters,
    MixtureModel_init, ListModel_init.
  destruct stored as [| [] | | |], weights, params; simpl;
    repeat split; intros; try congruence; auto.
Qed.
End CheckParameters.

(** ** The density of a mixture *)

Section Mixture.
Context {E V : Type} `{Numeric V}.
Implicit Types (m : @dist E V) (x : ndarray E) (p : @kwargs V) (self : @ListModel E V).

Lemma native_logdensity_try m x p l :
  native_logdensity m x p = Ok l ->
  try_except_AttributeError
    (call_density (d_logpdf m) x (Ok p)) (call_density (d_logpmf m) x (Ok p)) = Ok l.
Proof.
  unfold native_logdensity, call_density.
  destruct (d_logpdf m) as [g|]; simpl.
  - intros ->. reflexivity.
  - destruct (d_logpmf m) as [g|]; simpl; [|discriminate]. intros ->. reflexivity.
Qed.

Lemma mixture_loop_sum x (subs : list (@dist E V)) (ps : list (@kwargs V)) (ls : list V) :
  Forall3 (fun m p l => native_logdensity m x p = Ok l) subs ps ls ->
  forall (ws : list V) (acc : V),
    mixture_loop x acc (zip (zip ws subs) ps) =
      Ok (foldl (fun acc '(w, l) => num_add acc (num_mul w (np_exp l))) acc (zip ws ls)).
Proof.
  induction 1 as [|m p l subs ps ls Hl _ IH]; intros ws acc.
  - destruct ws; reflexivity.
  - destruct ws as [|w ws]; [reflexivity|]. simpl.
    rewrite (native_logdensity_try _ _ _ _ Hl). simpl. apply IH.
Qed.

Lemma mixture_first_term self x m subs w ws p ps l :
  submodels self = m :: subs ->
  native_logdensity m x p = Ok l ->
  try_except_AttributeError
    (mixture_first d_logpdf self x (w :: ws) (p :: ps))
    (mixture_first d_logpmf self x (w :: ws) (p :: ps))
  = Ok (num_mul w (np_exp l)).
Proof.
  intros Hsubs Hl. unfold mixture_first. rewrite Hsubs. simpl.
  unfold native_logdensity, call_density in *.
  destruct (d_logpdf m) as [g|]; simpl.
  - rewrite Hl. reflexivity.
  - destruct (d_logpmf m) as [g|]; simpl; [|discriminate]. rewrite Hl. reflexivity.
Qed.

(** C7.  For a mixture that is not frozen and has at least one submodel,
    weights [ws], one per submodel, and parameters that are a list [ps] of
    dictionaries: when the log-density of every submodel ([logpdf], or
    [logpmf] for a submodel with no [logpdf]) at the whole of [x] and its
    dictionary is [l], [pdf] returns the sum, from the first submodel to the
    last, of [w * exp(l)]. *)
Theorem mixture_pdf_weighted_sum (h : @store E V) self x (ws : list V)
    (params : @pyobj V) (ps : list (@kwargs V)) (ls : list V) :
  frozen self = false ->
  submodels self <> [] ->
  length ws = length (submodels self) ->
  as_dicts h params = Ok ps ->
  Forall3 (fun m p l => native_logdensity m x p = Ok l) (submodels self) ps ls ->
  exists total,
    weighted_sum (zip ws ls) = Some total
    /\ MixtureModel_pdf h self x (PyNums ws) params = Ok total.
Proof.
  intros Hf Hne Hlen Hps Hls.
  assert (Hp : eq_None params = false) by (destruct params; simpl in *; congruence).
  unfold MixtureModel_pdf, MixtureModel_pdf_sum, _check_parameters.
  rewrite Hf, Hp. cbn [andb negb mbind result_bind eq_None as_nums].
  rewrite Hps. cbn [mbind result_bind].
  destruct (submodels self) as [|m subs] eqn:Hsubs; [congruence|].
  inversion Hls as [|m' p l subs' ps' ls' Hl Hrest]; subst.
  destruct ws as [|w ws]; [discriminate|].
  eexists. split; [reflexivity|].
  rewrite (mixture_first_term self x m subs w ws p ps' l Hsubs Hl).
  cbn [mbind result_bind]. unfold rest. simpl drop. rewrite !drop_0.
  apply mixture_loop_sum. assumption.
Qed.
End Mixture.

(** A continuous and a discrete component with the weights 0.3 and 0.7, at
    the point 1. *)
Lemma mixture_pdf_weighted_sum_witness :
  MixtureModel_pdf empty_store two_component_mixture (mk_ndarray [1] [1%R])
    (PyNums [(3 / 10)%R; (7 / 10)%R])
    (PyDicts [[("loc", 0%R)]; [("loc", 2%R)]])
  = Ok ((3 / 10) * exp (- ((1 - 0) * (1 - 0)) / 2)
        + (7 / 10) * exp (- ((1 - 2) * (1 - 2)) / 2))%R.
Proof.
  destruct (mixture_pdf_weighted_sum empty_store two_component_mixture
              (mk_ndarray [1] [1%R])
              [(3 / 10)%R; (7 / 10)%R]
              (PyDicts [[("loc", 0%R)]; [("loc", 2%R)]])
              [[("loc", 0%R)]; [("loc", 2%R)]]
              [(- ((1 - 0) * (1 - 0)) / 2)%R; (- ((1 - 2) * (1 - 2)) / 2)%R]
              eq_refl ltac:(discriminate) eq_refl eq_refl
              ltac:(repeat constructor))
    as (total & Hsum & Hpdf).
  simpl in Hsum. inversion Hsum; subst total. exact Hpdf.
Defined.

(** ** Reparameterised distributions *)

Section Dicts.
Context {X : Type}.
Implicit Types (d pairs : list (string * X)).

Lemma dict_get_set d key val name :
  dict_get (dict_set d key val) name =
    if decide (key = name) then Some val else dict_get d name.
Proof.
  induction d as [|[k v] d IH]; simpl.
  - destruct (String.eqb_spec key name); case_decide; congruence.
  - destruct (String.eqb_spec k key) as [->|Hne]; simpl.
    + destruct (String.eqb_spec key name); case_decide; congruence.
    + rewrite IH. destruct (String.eqb_spec k name) as [->|]; [|reflexivity].
      case_decide; congruence.
Qed.

Lemma last_value_cons key val pairs name :
  last_value ((key, val) :: pairs) name =
    match last_value pairs name with
    | Some v => Some v
    | None => if decide (key = name) then Some val else None
    end.
Proof.
  unfold last_value. rewrite filter_cons. simpl.
  case_decide as Hk; [rewrite last_cons|]; destruct (last _); reflexivity.
Qed.
End Dicts.

Section Rename.
Context {E V : Type}.
Implicit Types (self : @TransDist E V) (params : @kwargs V).

(** The loop of [get_orig_args], from any dictionary built so far. *)
Lemma renamed_parameters_from self params (acc : @kwargs V) name :
  dict_get
    (foldl (fun renamed '(key, val) =>
              match dict_get (renaming_map self) key with
              | Some name => dict_set renamed name val
              | None => dict_set renamed key val
              end) acc params) name =
    match last_value (map (fun kv => (forward_name self (fst kv), snd kv)) params) name with
    | Some v => Some v
    | None => dict_get acc name
    end.
Proof.
  revert acc. induction params as [|[key val] params IH]; intros acc; simpl.
  - reflexivity.
  - rewrite IH. clear IH. simpl. rewrite last_value_cons.
    destruct (last_value _ name); [reflexivity|].
    unfold forward_name.
    destruct (dict_get (renaming_map self) key); simpl;
      rewrite dict_get_set; case_decide; reflexivity.
Qed.

(** C6, as amended.  [get_orig_args] renames every keyword that is the
    left-hand side [a] of a rule ["a -> b"] to the right-hand side [b] and
    keeps the other keywords (when two keywords get one name, the value of
    the later one stays), then applies the transform function; [logpdf],
    [logpmf] and [rvs] call the underlying distribution with the
    arguments so obtained. *)
Theorem get_orig_args_forward_rename self params (x : ndarray E) (size : Z) :
  (forall name,
      dict_get (renamed_parameters self params) name =
        last_value (map (fun kv => (forward_name self (fst kv), snd kv)) params) name)
  /\ get_orig_args self params =
       match transform_func self with
       | Some t => t (renamed_parameters self params)
       | None => Raise TypeError
       end
  /\ TransDist_logpdf self x params =
       (orig_pars ← get_orig_args self params;
        call_density (d_logpdf (orig_dist self)) x (Ok orig_pars))
  /\ TransDist_logpmf self x params =
       (orig_pars ← get_orig_args self params;
        call_density (d_logpmf (orig_dist self)) x (Ok orig_pars))
  /\ TransDist_rvs self size params =
       (orig_pars ← get_orig_args self params;
        match d_rvs (orig_dist self) with
        | Some draw => draw size orig_pars
        | None => Raise AttributeError
        end).
Proof.
  repeat split.
  intros name. unfold renamed_parameters. rewrite renamed_parameters_from.
  destruct (last_value _ name); reflexivity.
Qed.
End Rename.

(** The rule ["a -> b"] makes [a] the key and [b] the value of the rename
    map, and [a] the argument that the distribution reports for the
    parameter [b] of its transform function; the keyword [a] reaches the
    transform function as [b]. *)
Example rule_a_b :
  exists self : @TransDist Z Z,
    TransDist_init (fun _ => []) declared_names no_methods (Some takes_b)
      (Some ["a -> b"]) None = Ok self
    /\ renaming_map self = [("a", "b")]
    /\ args self = ["a"]
    /\ get_orig_args self [("a", 1%Z)] = Ok [("b", 1%Z)]
    /\ get_orig_args_reversed self [("a", 1%Z)] = Raise TypeError.
Proof. eexists. split; [reflexivity|]. repeat split. Qed.

(** C6, as stated, fails.  With the rule ["a -> b"] and a transform
    function that returns its keywords as they are, the keyword [b] is
    passed on as [b] and not taken back to [a], and the keyword [a] is taken
    to [b]: the rename map is applied from left to right, not in reverse. *)
Lemma get_orig_args_is_not_reversed :
  exists self : @TransDist Z Z,
    TransDist_init (fun _ => []) declared_names no_methods (Some null_transform)
      (Some ["a -> b"]) (Some ["a"]) = Ok self
    /\ get_orig_args self [("b", 1%Z)] = Ok [("b", 1%Z)]
    /\ get_orig_args_reversed self [("b", 1%Z)] = Ok [("a", 1%Z)]
    /\ get_orig_args self [("a", 1%Z)] = Ok [("b", 1%Z)]
    /\ get_orig_args_reversed self [("a", 1%Z)] = Ok [("a", 1%Z)]
    /\ get_orig_args self [("b", 1%Z)] <> get_orig_args_reversed self [("b", 1%Z)].
Proof.
  eexists. split; [reflexivity|]. repeat split; try reflexivity. discriminate.
Qed.

(** ** The density of a joint distribution *)

Section JointDensity.
Context {E V : Type} `{Numeric V}.
Implicit Types (self : @JointDist E V) (x : ndarray E) (h : @store E V).

(** The two loops over the later submodels go together: [pdf] multiplies
    by the exponentials of the log-densities that [logpdf_list] collects,
    and raises what it raises. *)
Lemma pdf_loop_logpdf_loop self rows :
  forall i (_pdf : V) (_logpdf : list V),
    match logpdf_loop self i rows _logpdf with
    | Ok ls =>
        exists ls', ls = _logpdf ++ ls'
          /\ pdf_loop self i rows _pdf = Ok (foldl num_mul _pdf (map np_exp ls'))
    | Raise e => pdf_loop self i rows _pdf = Raise e
    end.
Proof.
  induction rows as [|[[[xi submodel] alt_logpdf] pars] rows IH]; intros i _pdf _logpdf; simpl.
  - exists []. rewrite app_nil_r. auto.
  - unfold submodel_pdf.
    destruct alt_logpdf as [alt|].
    + destruct (alt xi pars) as [l|err]; simpl; [|reflexivity].
      specialize (IH (S i) (num_mul _pdf (np_exp l)) (_logpdf ++ [l])).
      destruct (logpdf_loop self (S i) rows (_logpdf ++ [l])); [|exact IH].
      destruct IH as (ls' & -> & ->). exists (l :: ls').
      rewrite <- app_assoc. auto.
    + destruct (submodel_logpdf self (i + 1) xi pars) as [l|err]; simpl; [|reflexivity].
      specialize (IH (S i) (num_mul _pdf (np_exp l)) (_logpdf ++ [l])).
      destruct (logpdf_loop self (S i) rows (_logpdf ++ [l])); [|exact IH].
      destruct IH as (ls' & -> & ->). exists (l :: ls').
      rewrite <- app_assoc. auto.
Qed.

Lemma joint_rows_one self x_split fs ps :
  length (submodels (base self)) <= 1 -> joint_rows self x_split fs ps = [].
Proof.
  unfold joint_rows, rest. intros Hlen.
  destruct (submodels (base self)) as [|m [|m' subs]]; simpl in *; try lia.
  - destruct (drop 1 x_split); reflexivity.
  - destruct (drop 1 x_split); reflexivity.
Qed.

(** For a joint distribution that is not frozen and data of two axes or
    more, [logpdf_list] leaves the store as it is, and [pdf] returns the
    product of the exponentials of what [logpdf_list] returns, or raises
    what it raises. *)
Lemma unfrozen_pdf_follows_logpdf_list self x (params : @pyobj V) h :
  frozen (base self) = false ->
  atleast_2d x = x ->
  snd (JointDist_logpdf_list self x params h) = h
  /\ match fst (JointDist_logpdf_list self x params h) with
     | Ok ls =>
         exists l0 ls', ls = l0 :: ls'
           /\ JointDist_pdf h self x params = Ok (foldl num_mul (np_exp l0) (map np_exp ls'))
     | Raise e => JointDist_pdf h self x params = Raise e
     end.
Proof.
  intros Hf Hx. unfold JointDist_logpdf_list, JointDist_pdf.
  rewrite Hf, Hx.
  destruct (_check_parameters (base self) params) as [p|err] eqn:Hcheck; simpl; [|auto].
  assert (Hp : eq_None p = false).
  { unfold _check_parameters in Hcheck. rewrite Hf in Hcheck. simpl in Hcheck.
    destruct (eq_None params) eqn:Hn; simpl in Hcheck; congruence. }
  destruct (ListModel_split_data (base self) x) as [x_split|err]; simpl; [|auto].
  rewrite Hp. simpl. split; [reflexivity|].
  destruct (as_overrides h (submodel_logpdf_replacements self)) as [fs|err]; simpl; [|auto].
  destruct (item fs 0) as [f0|err]; simpl; [|auto].
  destruct (item x_split 0) as [x0|err]; simpl; [|auto].
  destruct (as_dicts h p) as [ps|err]; simpl; [|auto].
  destruct (item ps 0) as [p0|err]; simpl; [|auto].
  assert (Hloop : forall l0 : V,
    match (if 1 <? length (submodels (base self))
           then logpdf_loop self 0 (joint_rows self x_split fs ps) [l0]
           else Ok [l0]) with
    | Ok ls =>
        exists l0' ls', ls = l0' :: ls'
          /\ pdf_loop self 0 (joint_rows self x_split fs ps) (np_exp l0)
             = Ok (foldl num_mul (np_exp l0') (map np_exp ls'))
    | Raise e => pdf_loop self 0 (joint_rows self x_split fs ps) (np_exp l0) = Raise e
    end).
  { intros l0. destruct (1 <? length (submodels (base self))) eqn:Hlen.
    - pose proof (pdf_loop_logpdf_loop self (joint_rows self x_split fs ps) 0 (np_exp l0) [l0])
        as Hl.
      destruct (logpdf_loop self 0 (joint_rows self x_split fs ps) [l0]); [|exact Hl].
      destruct Hl as (ls' & -> & ->). exists l0, ls'. auto.
    - apply Nat.ltb_ge in Hlen. rewrite joint_rows_one by assumption.
      exists l0, []. auto. }
  unfold submodel_pdf.
  destruct f0 as [alt|].
  - destruct (alt x0 p0) as [l0|err]; simpl; [apply Hloop|reflexivity].
  - destruct (submodel_logpdf self 0 x0 p0) as [l0|err]; simpl; [apply Hloop|reflexivity].
Qed.
End JointDensity.

(** Over the real numbers, the product of the exponentials is the
    exponential of the sum. *)
Lemma product_of_exponentials (ls : list R) (acc : R) :
  foldl Rmult (exp acc) (map exp ls) = exp (fold_left Rplus ls acc).
Proof.
  revert acc. induction ls as [|l ls IH]; intros acc; simpl; [reflexivity|].
  rewrite <- exp_plus. apply IH.
Qed.

(** So, over the real numbers, [pdf] is the exponential of [logpdf] for a
    joint distribution that is not frozen and data of two axes or more. *)
Lemma unfrozen_pdf_is_exp_logpdf {E : Type} (self : @JointDist E R) (x : ndarray E)
    (params : @pyobj R) (h : @store E R) :
  frozen (base self) = false ->
  atleast_2d x = x ->
  match fst (JointDist_logpdf self x params h) with
  | Ok l => JointDist_pdf h self x params = Ok (exp l)
  | Raise e => JointDist_pdf h self x params = Raise e
  end.
Proof.
  intros Hf Hx.
  destruct (unfrozen_pdf_follows_logpdf_list self x params h Hf Hx) as [_ Hlist].
  unfold JointDist_logpdf.
  destruct (JointDist_logpdf_list self x params h) as [[ls|err] h']; simpl in *; [|exact Hlist].
  destruct Hlist as (l0 & ls' & -> & ->). simpl. f_equal.
  change (foldl num_mul (np_exp l0) (map np_exp ls')) with (foldl Rmult (exp l0) (map exp ls')).
  change (fold_left num_add ls' (num_add num_zero l0)) with (fold_left Rplus ls' (0 + l0)%R).
  rewrite product_of_exponentials, Rplus_0_l. reflexivity.
Qed.

(** ** A joint distribution and its frozen copy *)

Section FrozenCopy.
Context {E V : Type} `{Numeric V}.
Variable g : ndarray E -> @kwargs V -> V.
Variable a : ndarray E -> @kwargs V -> V.
Variable v : V.
Variable e : E.

(** The frozen copy holds the list of parameters it was called with and
    the table of replacements of the object it was made from. *)
Lemma frozen_joint_fields :
  exists F h,
    frozen_joint g v = (Ok F, h)
    /\ frozen (base F) = true
    /\ submodel_logpdf_replacements F
       = submodel_logpdf_replacements (fst (unfrozen_joint g))
    /\ as_dicts h (parameters (base F)) = Ok [one_parameter v]
    /\ as_overrides h (submodel_logpdf_replacements F) = Ok [None].
Proof. eexists _, _. repeat split. Qed.

(** C2, at an input where the code breaks it.  [F = J([{'loc': v}])] for
    [J = JointDist([atom])]: [F.pdf(x)] raises the [ValueError] for
    parameters given to a frozen distribution, and [F.logpdf(x)] returns the
    log-density of the submodel. *)
Theorem frozen_pdf_raises_where_logpdf_returns :
  exists F h,
    frozen_joint g v = (Ok F, h)
    /\ frozen (base F) = true
    /\ JointDist_pdf h F (one_point e) PyNone = Raise (ValueError FrozenParametersSupplied)
    /\ fst (JointDist_logpdf F (one_point e) PyNone h)
       = Ok (num_add num_zero (g (one_point e) (one_parameter v))).
Proof. eexists _, _. repeat split. Qed.

(** C3, at an input where the code breaks it.  For the same [F], the list
    of parameters stored when it was frozen is [[{'loc': v}]]; after
    [F.logpdf_list(x)], which returns the log-density of the submodel, the
    stored list is [[{}]]. *)
Theorem logpdf_list_overwrites_frozen_parameters :
  exists F h,
    frozen_joint g v = (Ok F, h)
    /\ frozen (base F) = true
    /\ as_dicts h (parameters (base F)) = Ok [one_parameter v]
    /\ fst (JointDist_logpdf_list F (one_point e) PyNone h)
       = Ok [g (one_point e) (one_parameter v)]
    /\ as_dicts (snd (JointDist_logpdf_list F (one_point e) PyNone h)) (parameters (base F))
       = Ok [[]].
Proof. eexists _, _. repeat split. Qed.

(** C4, at an input where the code breaks it.  For the same [J] and [F],
    [J.set_submodel_logpdf(0, alt)] changes the table of replacements of [F]
    from [[None]] to [[alt]], and with it what [F.logpdf_list(x)] returns. *)
Theorem frozen_copy_shares_override_table :
  let alt : @density E V := fun x kw => Ok (a x kw) in
  exists F h h',
    frozen_joint g v = (Ok F, h)
    /\ set_submodel_logpdf (fst (unfrozen_joint g)) 0 (Some alt) h = (Ok (), h')
    /\ as_overrides h (submodel_logpdf_replacements F) = Ok [None]
    /\ as_overrides h' (submodel_logpdf_replacements F) = Ok [Some alt]
    /\ fst (JointDist_logpdf_list F (one_point e) PyNone h)
       = Ok [g (one_point e) (one_parameter v)]
    /\ fst (JointDist_logpdf_list F (one_point e) PyNone h')
       = Ok [a (one_point e) (one_parameter v)].
Proof. intros alt. eexists _, _, _. repeat split. Qed.

(** Binding the attribute of [J] to another list leaves the store, and so
    the table of [F], as it was. *)
Lemma set_logpdf_keeps_base (J : @JointDist E V) (listf : loc) :
  base (set_logpdf J listf) = base J
  /\ submodel_logpdf_replacements (set_logpdf J listf) = listf.
Proof. split; reflexivity. Qed.
(** Once [F.logpdf(x)] has emptied the stored parameters, [F.pdf(x)]
    returns. *)
Example frozen_pdf_after_logpdf :
  exists F h,
    frozen_joint g v = (Ok F, h)
    /\ JointDist_pdf (snd (JointDist_logpdf F (one_point e) PyNone h)) F (one_point e) PyNone
       = Ok (np_exp (g (one_point e) (one_parameter v))).
Proof. eexists _, _. repeat split. Qed.

(** Not frozen, [J] returns both. *)
Example unfrozen_pdf_and_logpdf :
  JointDist_pdf (snd (unfrozen_joint g)) (fst (unfrozen_joint g)) (one_point e)
    (PyDicts [one_parameter v])
  = Ok (np_exp (g (one_point e) (one_parameter v)))
  /\ fst (JointDist_logpdf (fst (unfrozen_joint g)) (one_point e)
            (PyDicts [one_parameter v]) (snd (unfrozen_joint g)))
  = Ok (num_add num_zero (g (one_point e) (one_parameter v))).
Proof. split; reflexivity. Qed.

(** [split] gives the new object a table of its own: a change to the table
    of [J] does not reach it. *)
Example split_has_its_own_table :
  let alt : @density E V := fun x kw => Ok (a x kw) in
  exists S h h',
    JointDist_split (fst (unfrozen_joint g)) [0%Z] (snd (unfrozen_joint g)) = (Ok S, h)
    /\ set_submodel_logpdf (fst (unfrozen_joint g)) 0 (Some alt) h = (Ok (), h')
    /\ as_overrides h' (submodel_logpdf_replacements S) = Ok [None]
    /\ as_overrides h' (submodel_logpdf_replacements (fst (unfrozen_joint g)))
       = Ok [Some alt].
Proof. intros alt. eexists _, _, _. repeat split. Qed.
End FrozenCopy.

(** * Further properties *)

Section StructuralMapMore.
Context {A B : Type}.
Variable f : list A -> result B.

Lemma map_star_ok_inv rows rs :
  map_star f rows = Ok rs -> Forall2 (fun row r => apply_f f row = Ok r) rows rs.
Proof.
  revert rs. induction rows as [|row rows IH]; intros rs; simpl.
  - intros Heq. inversion Heq. constructor.
  - destruct (apply_f f row) as [r|] eqn:Hr; simpl; [|discriminate].
    destruct (map_star f rows) as [rs'|]; simpl; [|discriminate].
    intros Heq. inversion Heq. constructor; auto.
Qed.

Lemma map_star_raise_inv rows e :
  map_star f rows = Raise e -> exists row, In row rows /\ apply_f f row = Raise e.
Proof.
  induction rows as [|row rows IH]; simpl; [discriminate|].
  destruct (apply_f f row) as [r|e'] eqn:Hr; simpl.
  - destruct (map_star f rows) as [rs'|e'']; simpl; [discriminate|].
    intros Heq. destruct IH as (row' & Hin & Hrow'); [congruence|]. eauto.
  - intros Heq. exists row. split; [auto|congruence].
Qed.

Lemma zip_star_rows_nonempty (first : list (nested A)) rest row :
  In row (zip_star first rest) -> row <> [].
Proof.
  revert rest. induction first as [|x xs IH]; intros rest; simpl; [tauto|].
  destruct (heads_tails rest) as [[hs ts]|]; simpl; [|tauto].
  intros [<-|Hin]; [discriminate | eauto].
Qed.

Hypothesis f_total : forall args, is_ok (f args) = true.

(** A call that raises has reached a mismatch. *)
Lemma raise_reaches_mismatch t :
  forall others e, apply_f_from f t others = Raise e -> mismatch_reached (t :: others).
Proof.
  induction t as [a|items IH] using nested_induction; intros others e.
  - simpl. destruct (existsb isinstance_list others) eqn:Hany.
    + intros _. apply mismatch_here; simpl; [exact Hany | reflexivity].
    + specialize (f_total (a :: leaves_of others)).
      destruct (f (a :: leaves_of others)); simpl; discriminate.
  - rewrite apply_f_from_list.
    destruct (forallb isinstance_list others) eqn:Hall.
    + destruct (map_star f (zip_star items (map items_of others))) as [rs|e'] eqn:Hrows;
        simpl; [discriminate|]. intros _.
      apply map_star_raise_inv in Hrows as (row & Hin & Hrow).
      apply mismatch_below with (row := row); [simpl; exact Hall | exact Hin |].
      assert (Hhead : exists c hs, row = c :: hs /\ In c items).
      { clear -Hin. revert Hin. generalize (map items_of others) as rest.
        induction items as [|x xs IHx]; intros rest; simpl; [tauto|].
        destruct (heads_tails rest) as [[hs ts]|]; simpl; [|tauto].
        intros [<-|Hin]; [exists x, hs; auto|].
        destruct (IHx _ Hin) as (c & hs' & -> & Hc). exists c, hs'. auto. }
      destruct Hhead as (c & hs & -> & Hc).
      rewrite Forall_forall in IH. apply (IH c) with (e := e').
      * apply list_elem_of_In. exact Hc.
      * exact Hrow.
    + intros _. apply mismatch_here; simpl; [reflexivity | exact Hall].
Qed.
End StructuralMapMore.

(** X1.  With a function that raises nothing and at least one input
    structure, [apply_f] raises exactly when its lock-step descent reaches a
    node at which some inputs are lists and others are not; otherwise it
    returns a structure. *)
Theorem apply_f_raises_iff_mismatch {A B : Type} (f : list A -> result B)
    (t : nested A) (others : list (nested A)) :
  (forall args, is_ok (f args) = true) ->
  ((exists e, apply_f f (t :: others) = Raise e) <-> mismatch_reached (t :: others))
  /\ ((exists r, apply_f f (t :: others) = Ok r) <-> ~ mismatch_reached (t :: others)).
Proof.
  intros Hf.
  assert (Hiff : (exists e, apply_f f (t :: others) = Raise e) <-> mismatch_reached (t :: others)).
  { split.
    - intros [e He]. eapply raise_reaches_mismatch; eauto.
    - apply mismatch_raises. }
  split; [exact Hiff|]. split.
  - intros [r Hr] Hm. apply Hiff in Hm as [e He]. congruence.
  - intros Hn. destruct (apply_f f (t :: others)) as [r|e] eqn:Hr; [eauto|].
    exfalso. apply Hn, Hiff. eauto.
Qed.

Lemma apply_f_raises_iff_mismatch_witness :
  (exists r, apply_f sum_of [PyList [Leaf 1; Leaf 2]; PyList [Leaf 10; Leaf 20]] = Ok r)
  <-> ~ mismatch_reached [PyList [Leaf 1; Leaf 2]; PyList [Leaf 10; Leaf 20]].
Proof.
  exact (proj2 (apply_f_raises_iff_mismatch sum_of (PyList [Leaf 1; Leaf 2])
                  [PyList [Leaf 10; Leaf 20]] (fun args => eq_refl))).
Defined.

Section UnaryMap.
Context {A B : Type}.

(** With one structure and a function that returns, the loop over the items
    is the map over them. *)
Lemma apply_f_unary_total (g : A -> B) (t : nested A) :
  apply_f (unary (fun a => Ok (g a))) [t] = Ok (nested_map g t).
Proof.
  induction t as [a|items IH] using nested_induction; [reflexivity|].
  rewrite apply_f_one_list. simpl.
  assert (Hrows : map_star (unary (fun a => Ok (g a))) (map (fun c => [c]) items)
                  = Ok (map (nested_map g) items)).
  { induction IH as [|c items Hc _ IHitems]; simpl; [reflexivity|].
    unfold apply_f in Hc. rewrite Hc. simpl. rewrite IHitems. reflexivity. }
  rewrite Hrows. reflexivity.
Qed.
End UnaryMap.

Lemma nested_map_id {A : Type} (t : nested A) : nested_map (fun a => a) t = t.
Proof.
  induction t as [a|items IH] using nested_induction; simpl; [reflexivity|].
  f_equal. induction IH as [|c items Hc _ IHitems]; simpl; congruence.
Qed.

(** X2.  Applied to one structure with a function of one argument that
    returns, [apply_f] returns the structure with the function applied at
    every leaf; with the identity it returns the structure itself. *)
Theorem apply_f_unary_is_map {A B : Type} (g : A -> B) (t : nested A) :
  apply_f (unary (fun a => Ok (g a))) [t] = Ok (nested_map g t)
  /\ nesting (nested_map g t) = nesting t
  /\ apply_f (unary Ok) [t] = Ok t.
Proof.
  split; [apply apply_f_unary_total|]. split.
  - unfold nesting. induction t as [a|items IH] using nested_induction; simpl; [reflexivity|].
    f_equal. induction IH as [|c items Hc _ IHitems]; simpl; congruence.
  - exact (eq_trans (apply_f_unary_total (fun a => a) t) (f_equal Ok (nested_map_id t))).
Qed.

Section Truncation.
Context {A B : Type}.
Variable f : list A -> result B.

Lemma heads_tails_lengths {X} (ls : list (list X)) hs ts :
  heads_tails ls = Some (hs, ts) ->
  map length ls = map (fun t => S (length t)) ts /\ length ts = length ls.
Proof.
  revert hs ts. induction ls as [|l ls IH]; intros hs ts; simpl.
  - intros Heq. inversion Heq. auto.
  - destruct l as [|x xs]; [discriminate|].
    destruct (heads_tails ls) as [[hs' ts']|]; [|discriminate].
    intros Heq. inversion Heq; subst. destruct (IH hs' ts' eq_refl) as [Hm Hl].
    simpl. split; congruence.
Qed.

Lemma heads_tails_none {X} (ls : list (list X)) :
  heads_tails ls = None -> In 0 (map length ls).
Proof.
  induction ls as [|l ls IH]; simpl; [discriminate|].
  destruct l as [|x xs]; [auto|].
  destruct (heads_tails ls) as [[hs' ts']|]; [discriminate|]. auto.
Qed.

Lemma min_list_zero (n : nat) (ns : list nat) :
  In 0 ns -> foldr Nat.min n ns = 0.
Proof.
  induction ns as [|m ns IH]; simpl; [tauto|].
  intros [->|Hin]; [reflexivity|]. rewrite IH by assumption. lia.
Qed.

Lemma min_list_succ (n : nat) (ns : list nat) :
  foldr Nat.min (S n) (map S ns) = S (foldr Nat.min n ns).
Proof. induction ns as [|m ns IH]; simpl; [reflexivity|]. rewrite IH. lia. Qed.

(** [zip] yields as many tuples as the shortest list has items. *)
Lemma zip_star_length {X} (first : list X) (rest : list (list X)) :
  length (zip_star first rest) = foldr Nat.min (length first) (map length rest).
Proof.
  revert rest. induction first as [|x xs IH]; intros rest; simpl.
  - induction rest as [|l rest IHr]; simpl; [reflexivity|]. rewrite <- IHr. lia.
  - destruct (heads_tails rest) as [[hs ts]|] eqn:Hht; simpl.
    + rewrite IH. destruct (heads_tails_lengths _ _ _ Hht) as [Hm _].
      rewrite Hm. rewrite <- (map_map length S). rewrite min_list_succ. reflexivity.
    + rewrite min_list_zero; [reflexivity|]. apply heads_tails_none. assumption.
Qed.

Lemma map_star_length rows rs : map_star f rows = Ok rs -> length rs = length rows.
Proof.
  revert rs. induction rows as [|row rows IH]; intros rs; simpl.
  - intros Heq. inversion Heq. reflexivity.
  - destruct (apply_f f row); simpl; [|discriminate].
    destruct (map_star f rows) as [rs'|]; simpl; [|discriminate].
    intros Heq. inversion Heq. simpl. f_equal. auto.
Qed.

Lemma map_star_pairs (l1 l2 : list A) :
  map_star f (zip_star (map Leaf l1) [map Leaf l2])
  = rs ← mapM (fun '(a, b) => f [a; b]) (zip l1 l2); Ok (map Leaf rs).
Proof.
  revert l2. induction l1 as [|a l1 IH]; intros l2; simpl; [reflexivity|].
  destruct l2 as [|b l2]; simpl; [reflexivity|].
  rewrite IH. destruct (f [a; b]); simpl; [|reflexivity].
  destruct (mapM _ (zip l1 l2)); reflexivity.
Qed.
End Truncation.

(** X3.  Lists of different lengths are no mismatch for [apply_f]: when it
    returns for several lists, the list it returns has as many items as the
    shortest of them; for two lists of leaves it is the list of the values
    of the function at the pairs of [zip], or the first exception of the
    function. *)
Theorem apply_f_cuts_at_shortest {A B : Type} (f : list A -> result B)
    (first : list (nested A)) (others : list (list (nested A))) (l1 l2 : list A) :
  (forall r, apply_f f (PyList first :: map PyList others) = Ok r ->
     exists rs, r = PyList rs
       /\ length rs = foldr Nat.min (length first) (map length others))
  /\ apply_f f [PyList (map Leaf l1); PyList (map Leaf l2)]
     = (rs ← mapM (fun '(a, b) => f [a; b]) (zip l1 l2); Ok (PyList (map Leaf rs))).
Proof.
  split.
  - intros r. unfold apply_f. rewrite apply_f_from_list.
    assert (Hall : forallb isinstance_list (map PyList others) = true).
    { induction others; simpl; auto. }
    rewrite Hall.
    destruct (map_star f _) as [rs|] eqn:Hrows; simpl; [|discriminate].
    intros Heq. inversion Heq. exists rs. split; [reflexivity|].
    rewrite (map_star_length _ _ _ Hrows), zip_star_length.
    rewrite map_map. simpl. rewrite map_map. reflexivity.
  - unfold apply_f. rewrite apply_f_from_list. simpl.
    rewrite map_star_pairs. destruct (mapM _ (zip l1 l2)); reflexivity.
Qed.

(** X4.  [get_data_structure] never raises: for a list it returns the list
    with the shape of the array at every leaf, and for an array alone the
    list of the lengths of its axes. *)
Theorem get_data_structure_shapes {E : Type} (x : nested (ndarray E)) :
  get_data_structure x
  = Ok (match x with
        | PyList _ => nested_map (fun A => ShapeOf (shape A)) x
        | Leaf A => PyList (map (fun n => Leaf (AxisLength n)) (shape A))
        end).
Proof.
  unfold get_data_structure.
  rewrite (apply_f_unary_total (fun A => ShapeOf (shape A)) x).
  destruct x; reflexivity.
Qed.

Example get_data_structure_nested_data :
  get_data_structure nested_data
  = Ok (PyList [Leaf (ShapeOf [2; 2]); PyList [Leaf (ShapeOf [2; 1; 3])]]).
Proof. reflexivity. Qed.

Section UnaryLeaves.
Context {A B : Type}.
Variable g : A -> result B.

(** With one structure, what holds of the value at every leaf holds at
    every leaf of the result. *)
Lemma apply_f_unary_leaves (P : A -> bool) (Q : B -> bool) :
  (forall a, P a = true -> exists b, g a = Ok b /\ Q b = true) ->
  forall t, nested_forallb P t = true ->
    exists v, apply_f (unary g) [t] = Ok v
      /\ nested_forallb Q v = true
      /\ isinstance_list v = isinstance_list t.
Proof.
  intros Hg. induction t as [a|items IH] using nested_induction; intros HP.
  - simpl in HP. destruct (Hg a HP) as (b & Hb & HQ).
    exists (Leaf b). simpl. rewrite Hb. auto.
  - simpl in HP. rewrite apply_f_one_list.
    assert (Hrows : exists vs, map_star (unary g) (map (fun c => [c]) items) = Ok vs
                               /\ forallb (nested_forallb Q) vs = true).
    { induction IH as [|c items Hc _ IHitems]; simpl in *.
      - exists []. auto.
      - apply andb_true_iff in HP as [HPc HPs].
        destruct (Hc HPc) as (v & Hv & HQv & _).
        destruct (IHitems HPs) as (vs & Hvs & HQvs).
        exists (v :: vs). unfold apply_f in Hv. rewrite Hv, Hvs. simpl.
        rewrite HQv, HQvs. auto. }
    destruct Hrows as (vs & -> & HQ). exists (PyList vs). auto.
Qed.

Lemma map_star_cons (h : list A -> result B) row rows :
  map_star h (row :: rows)
  = (r ← apply_f h row; rs ← map_star h rows; Ok (r :: rs)).
Proof. reflexivity. Qed.

(** With one structure and a function that raises nothing but [e]: the
    call raises [e] when the function raises at some leaf, and returns
    otherwise. *)
Lemma apply_f_unary_outcome (e : exn) :
  (forall a, g a = Raise e \/ exists b, g a = Ok b) ->
  forall t,
    if nested_existsb (fun a => negb (is_ok (g a))) t
    then apply_f (unary g) [t] = Raise e
    else exists v, apply_f (unary g) [t] = Ok v.
Proof.
  intros Hg. induction t as [a|items IH] using nested_induction.
  - simpl. destruct (Hg a) as [Ha|[b Hb]]; rewrite ?Ha, ?Hb; simpl; eauto.
  - rewrite apply_f_one_list.
    assert (Hrows :
      if existsb (nested_existsb (fun a => negb (is_ok (g a)))) items
      then map_star (unary g) (map (fun c => [c]) items) = Raise e
      else exists vs, map_star (unary g) (map (fun c => [c]) items) = Ok vs).
    { induction IH as [|c items Hc _ IHitems]; [simpl; eauto|].
      cbn [existsb map]. rewrite map_star_cons.
      destruct (nested_existsb (fun a => negb (is_ok (g a))) c).
      - rewrite Hc. reflexivity.
      - destruct Hc as [v ->]. cbn [orb].
        destruct (existsb _ items).
        + rewrite IHitems. reflexivity.
        + destruct IHitems as [vs ->]. simpl. eauto. }
    cbn [nested_existsb].
    destruct (existsb _ items).
    + rewrite Hrows. reflexivity.
    + destruct Hrows as [vs ->]. simpl. eauto.
Qed.

Lemma apply_f_unary_raises (e : exn) :
  (forall a, g a = Raise e \/ exists b, g a = Ok b) ->
  forall t, nested_existsb (fun a => negb (is_ok (g a))) t = true ->
    apply_f (unary g) [t] = Raise e.
Proof.
  intros Hg t Hex. pose proof (apply_f_unary_outcome e Hg t) as Ho.
  rewrite Hex in Ho. exact Ho.
Qed.
End UnaryLeaves.

Section SliceBounds.
Context {E : Type}.
Implicit Types (A F G : ndarray E) (t : nested (ndarray E)).

Lemma flattenable_shape A :
  flattenable A = true ->
  exists n, almost_flatten A = Ok (mk_ndarray [flat_rows A; S n] (data A))
            /\ last (shape A) = Some (S n).
Proof.
  unfold flattenable, flat_rows, almost_flatten.
  destruct (last (shape A)) as [[|n]|]; simpl; try discriminate.
  intros _. exists n. auto.
Qed.

Lemma rows_between_returns (i j : Z) A :
  flattenable A = true ->
  exists G, rows_between i j A = Ok G /\ two_dimensional G = true.
Proof.
  intros HA. destruct (flattenable_shape A HA) as (n & HF & _).
  unfold rows_between. rewrite HF. simpl. unfold take_rows. simpl.
  eexists. split; reflexivity.
Qed.


Lemma row_at_cases (i : Z) A :
  flattenable A = true ->
  (index_in_range i A = true /\ exists G, row_at i A = Ok G)
  \/ (index_in_range i A = false /\ row_at i A = Raise IndexError).
Proof.
  intros HA. destruct (flattenable_shape A HA) as (n & HF & _).
  unfold index_in_range, row_at. rewrite HA, HF. simpl.
  unfold take_row, py_index. simpl.
  destruct (Z.leb_spec 0 i), (Z.ltb_spec i (Z.of_nat (flat_rows A))),
    (Z.leb_spec (- Z.of_nat (flat_rows A)) i), (Z.ltb_spec i 0);
    simpl; try lia; eauto.
Qed.

Lemma py_list_two_dimensional (v : nested (ndarray E)) :
  nested_forallb two_dimensional v = true -> exists d, py_list v = Ok d.
Proof.
  destruct v as [G|items]; simpl; [|eauto].
  unfold two_dimensional, iter_axis0. destruct (shape G) as [|r [|n [|]]]; try discriminate.
  simpl. eauto.
Qed.

(** X5.  [almost_flatten] refuses an array with no axis ([IndexError]) and
    an array whose last axis has length 0 ([ValueError]); any other array
    becomes a two-dimensional one with the same elements in the same order
    and the same rows, as many as the product of the leading axes, and
    well-shaped when the array is. *)
Theorem almost_flatten_cases (A : ndarray E) :
  (shape A = [] -> almost_flatten A = Raise IndexError)
  /\ (last (shape A) = Some 0 -> almost_flatten A = Raise (ValueError CannotReshape))
  /\ (forall n, last (shape A) = Some (S n) ->
        exists F, almost_flatten A = Ok F
          /\ shape F = [np_prod (removelast (shape A)); S n]
          /\ data F = data A
          /\ rows_of F = rows_of A
          /\ (well_shaped A -> well_shaped F)).
Proof.
  unfold almost_flatten. split; [intros ->; reflexivity|].
  split; [intros ->; reflexivity|].
  intros n Hl. rewrite Hl. eexists. split; [reflexivity|]. simpl.
  split; [reflexivity|]. split; [reflexivity|]. split.
  - unfold rows_of. simpl. rewrite Hl. rewrite Nat.mul_1_r. reflexivity.
  - unfold well_shaped. simpl. intros Hw. rewrite Hw.
    rewrite (shape_split _ _ Hl) at 1. rewrite np_prod_snoc. lia.
Qed.



(** X7.  For data whose leaves can all be flattened: a range slice is
    returned for every pair of bounds, those outside the rows included,
    with the count [j - i]; a single index that is no index of a row of
    some leaf raises [IndexError], and one that is an index of a row of
    every leaf returns. *)
Theorem get_data_slice_bounds (data : nested (ndarray E)) (size : list Z) :
  nested_forallb flattenable data = true ->
  size <> [] ->
  (forall i j, exists d n, get_data_slice (data, size) i (Some j) = Ok (d, ((j - i)%Z, n)))
  /\ (forall i, nested_existsb (fun A => negb (index_in_range i A)) data = true ->
        get_data_slice (data, size) i None = Raise IndexError)
  /\ (forall i, nested_forallb (index_in_range i) data = true ->
        exists d n, get_data_slice (data, size) i None = Ok (d, (1%Z, n))).
Proof.
  intros Hflat Hsize. destruct (last_of_nonempty size Hsize) as [n Hn].
  split; [|split].
  - intros i j.
    destruct (apply_f_unary_leaves (@rows_between E i j) (@flattenable E) (@two_dimensional E))
      with (t := data) as (v & Hv & HQ & _); [|exact Hflat|].
    { intros A HA. apply rows_between_returns. exact HA. }
    destruct (py_list_two_dimensional v HQ) as [d Hd].
    exists d, n. unfold get_data_slice, last_of. rewrite Hv. simpl. rewrite Hd. simpl.
    rewrite Hn. reflexivity.
  - intros i Hex.
    (* every leaf raises IndexError or returns *)
    assert (Hraise : apply_f (unary (fun A => if flattenable A then row_at i A
                                              else Raise IndexError)) [data]
                     = Raise IndexError).
    { apply apply_f_unary_raises.
      - intros A. destruct (flattenable A) eqn:HA; [|auto].
        destruct (row_at_cases i A HA) as [[_ [G HG]]|[_ HG]]; eauto.
      - revert Hflat Hex. clear. induction data as [A|items IH] using nested_induction; simpl.
        + intros HA Hex. rewrite HA.
          destruct (row_at_cases i A HA) as [[Hr _]|[_ HG]].
          * rewrite Hr in Hex. discriminate.
          * rewrite HG. reflexivity.
        + induction IH as [|c items Hc _ IHitems]; simpl; [auto|].
          intros Hf Hex. apply andb_true_iff in Hf as [Hf1 Hf2].
          apply orb_true_iff in Hex as [Hex|Hex].
          * rewrite (Hc Hf1 Hex). reflexivity.
          * rewrite (IHitems Hf2 Hex). apply orb_true_r. }
    assert (Hsame : apply_f (unary (row_at i)) [data]
                    = apply_f (unary (fun A => if flattenable A then row_at i A
                                               else Raise IndexError)) [data]).
    { revert Hflat. clear. induction data as [A|items IH] using nested_induction.
      - simpl. intros ->. reflexivity.
      - cbn [nested_forallb]. intros Hf. rewrite !apply_f_one_list. f_equal.
        induction IH as [|c items Hc _ IHitems]; [reflexivity|].
        cbn [forallb] in Hf. apply andb_true_iff in Hf as [Hf1 Hf2].
        cbn [map]. rewrite !map_star_cons, (Hc Hf1), (IHitems Hf2). reflexivity. }
    unfold get_data_slice. rewrite Hsame, Hraise. reflexivity.
  - intros i Hin.
    destruct (apply_f_unary_leaves (row_at i) (index_in_range i)
                (fun G => Nat.eqb (length (shape G)) 1)) with (t := data)
      as (v & Hv & HQ & _); [|exact Hin|].
    { intros A HA. unfold index_in_range in HA. apply andb_true_iff in HA as [HA Hr].
      destruct (row_at_cases i A HA) as [[_ [G HG]]|[Hr' _]].
      - exists G. split; [exact HG|].
        destruct (flattenable_shape A HA) as (m & HF & _).
        unfold row_at in HG. rewrite HF in HG. simpl in HG. unfold take_row in HG. simpl in HG.
        destruct (py_index (flat_rows A) i); simpl in HG; [|discriminate].
        inversion HG. reflexivity.
      - unfold index_in_range in Hr'. rewrite HA, Hr in Hr'. discriminate. }
    assert (Hpl : exists d, py_list v = Ok d).
    { destruct v as [G|items]; simpl in *; [|eauto].
      unfold iter_axis0. destruct (shape G); [discriminate|]. simpl. eauto. }
    destruct Hpl as [d Hd].
    exists d, n. unfold get_data_slice, last_of. rewrite Hv. simpl. rewrite Hd. simpl.
    rewrite Hn. reflexivity.
Qed.

(** X8.  At a leaf that can be flattened and for bounds [0 <= i <= j <= k],
    the rows from [i] to [k] are the rows from [i] to [j] followed by the
    rows from [j] to [k]. *)
Theorem rows_between_adjacent (A : ndarray E) (i j k : Z) :
  flattenable A = true ->
  (0 <= i)%Z -> (i <= j)%Z -> (j <= k)%Z ->
  exists G1 G2 G3 r1 r2 n,
    rows_between i j A = Ok G1 /\ rows_between j k A = Ok G2
    /\ rows_between i k A = Ok G3
    /\ shape G1 = [r1; n] /\ shape G2 = [r2; n] /\ shape G3 = [r1 + r2; n]
    /\ data G3 = data G1 ++ data G2.
Proof.
  intros HA Hi Hij Hjk. destruct (flattenable_shape A HA) as (n & HF & _).
  unfold rows_between. rewrite HF. simpl. unfold take_rows. simpl.
  set (r := flat_rows A).
  assert (Hb : forall z, (0 <= z)%Z -> py_slice_bound r z = Z.to_nat (Z.min z (Z.of_nat r))).
  { intros z Hz. unfold py_slice_bound.
    assert (H0 : (z <? 0)%Z = false) by (apply Z.ltb_ge; lia). rewrite H0. reflexivity. }
  rewrite !Hb by lia.
  set (a := Z.to_nat (Z.min i (Z.of_nat r))).
  set (b := Z.to_nat (Z.min j (Z.of_nat r))).
  set (c := Z.to_nat (Z.min k (Z.of_nat r))).
  assert (Hab : a <= b) by (subst a b; lia).
  assert (Hbc : b <= c) by (subst b c; lia).
  eexists _, _, _, (b - a), (c - b), (S n).
  split; [reflexivity|]. split; [reflexivity|]. split; [reflexivity|].
  split; [reflexivity|]. split; [reflexivity|]. simpl.
  split; [f_equal; f_equal; lia|].
  replace ((c - a) * S n) with ((b - a) * S n + (c - b) * S n) by nia.
  replace (b * S n) with (a * S n + (b - a) * S n) by nia.
  rewrite <- (drop_drop (data A)).
  generalize (drop (a * S n) (data A)) as l.
  generalize ((b - a) * S n) as x. generalize ((c - b) * S n) as y. clear.
  intros y x l. revert x. induction l as [|e l IH]; intros x.
  - rewrite drop_nil, !take_nil. reflexivity.
  - destruct x as [|x]; simpl; [reflexivity|]. f_equal. apply IH.
Qed.
End SliceBounds.


Lemma get_data_slice_bounds_witness :
  (exists d n, get_data_slice (nested_data, [2%Z; 5%Z]) 1 (Some 7%Z) = Ok (d, (6%Z, n)))
  /\ get_data_slice (nested_data, [2%Z; 5%Z]) 2 None = Raise IndexError.
Proof.
  destruct (get_data_slice_bounds nested_data [2%Z; 5%Z] eq_refl ltac:(discriminate))
    as (Hrange & Hsingle & _).
  split; [exact (Hrange 1%Z 7%Z) | exact (Hsingle 2%Z eq_refl)].
Defined.

Lemma rows_between_adjacent_witness :
  exists G1 G2 G3 r1 r2 n,
    rows_between 0 1 two_by_three = Ok G1 /\ rows_between 1 2 two_by_three = Ok G2
    /\ rows_between 0 2 two_by_three = Ok G3
    /\ shape G1 = [r1; n] /\ shape G2 = [r2; n] /\ shape G3 = [r1 + r2; n]
    /\ data G3 = data G1 ++ data G2.
Proof.
  apply (rows_between_adjacent two_by_three 0 1 2 eq_refl); lia.
Defined.

Section ResultLists.
Context {X Y : Type}.
Variable g : X -> result Y.

Lemma mapM_ok_iff (l : list X) (out : list Y) :
  mapM g l = Ok out <-> Forall2 (fun x y => g x = Ok y) l out.
Proof.
  revert out. induction l as [|x l IH]; intros out; simpl.
  - split.
    + intros Heq. inversion Heq. constructor.
    + intros Hf. inversion Hf. reflexivity.
  - split.
    + destruct (g x) as [y|] eqn:Hy; simpl; [|discriminate].
      destruct (mapM g l) as [ys|] eqn:Hys; simpl; [|discriminate].
      intros Heq. inversion Heq. constructor; [assumption|]. apply IH. reflexivity.
    + intros Hf. inversion Hf as [|x' y l' ys Hy Hys]; subst.
      rewrite Hy. simpl. apply IH in Hys. rewrite Hys. reflexivity.
Qed.

Lemma mapM_raise_first (x : X) (l : list X) (e : exn) :
  g x = Raise e -> mapM g (x :: l) = Raise e.
Proof. intros Hx. simpl. rewrite Hx. reflexivity. Qed.
End ResultLists.

Section Freezing.
Context {E V : Type} `{Numeric V}.
Implicit Types (self : @ListModel E V) (h : @store E V) (m : @dist E V).

Lemma freeze_submodels_unfold h self params :
  _freeze_submodels h self params =
    if frozen self then Raise (ValueError AlreadyFrozen)
    else ps ← as_dicts h params; mapM freeze_pair (zip (submodels self) ps).
Proof. reflexivity. Qed.

(** X9.  [_freeze_submodels] raises the "already frozen" [ValueError] for
    a frozen composite.  For one that is not frozen and a list of
    dictionaries, what it returns has one item per pair of
    [zip(self.submodels, parameters)], the value of calling the submodel
    with the dictionary: as many items as the shorter of the two lists, the
    rest being dropped without an exception; and it raises [TypeError] when
    the first submodel of a pair cannot be called. *)
Theorem freeze_submodels_cases h self (params : @pyobj V) (ps : list (@kwargs V)) :
  (frozen self = true ->
     _freeze_submodels h self params = Raise (ValueError AlreadyFrozen))
  /\ (frozen self = false -> as_dicts h params = Ok ps ->
      (forall out, _freeze_submodels h self params = Ok out ->
         length out = Nat.min (length (submodels self)) (length ps)
         /\ Forall2 (fun mp m' => exists freeze,
                        d_call (fst mp) = Some freeze /\ freeze (snd mp) = Ok m')
                    (zip (submodels self) ps) out)
      /\ (forall m subs p ps', submodels self = m :: subs -> ps = p :: ps' ->
            d_call m = None -> _freeze_submodels h self params = Raise TypeError)).
Proof.
  rewrite freeze_submodels_unfold. split.
  - intros ->. reflexivity.
  - intros -> ->. simpl. split.
    + intros out Hout. apply mapM_ok_iff in Hout. split.
      * apply Forall2_length in Hout. rewrite <- Hout, length_zip. reflexivity.
      * eapply Forall2_impl; [exact Hout|].
        intros [m p] m' Hm. simpl in *. destruct (d_call m) as [c|]; [eauto|discriminate].
    + intros m subs p ps' -> -> Hm. simpl. rewrite Hm. reflexivity.
Qed.

(** X10.  When [MixtureModel.__call__] returns, the mixture was not frozen
    and both arguments were given; the new mixture stores the weights, is
    frozen unless the weights are [False], counts one variate for each of
    its submodels, and, when frozen, cannot be called again: that raises
    the "already frozen" [ValueError]. *)
Theorem mixture_call_result h self (weights params : @pyobj V) (F : @ListModel E V) :
  MixtureModel_call h self weights params = Ok F ->
  frozen self = false
  /\ weights <> PyNone /\ params <> PyNone
  /\ parameters F = weights
  /\ frozen F = negb (eq_False weights)
  /\ _freeze_submodels h self params = Ok (submodels F)
  /\ dims F = replicate (length (submodels F)) 1
  /\ (frozen F = true ->
      forall h' w' p', MixtureModel_call h' F w' p' = Raise (ValueError AlreadyFrozen)).
Proof.
  unfold MixtureModel_call, _check_parameters.
  destruct (frozen self) eqn:Hf; [discriminate|]. simpl.
  destruct (eq_None params) eqn:Hp; simpl; [discriminate|].
  destruct (eq_None weights) eqn:Hw; simpl; [discriminate|].
  destruct (_freeze_submodels h self params) as [out|] eqn:Hout; simpl; [|discriminate].
  intros Heq. inversion Heq; subst F. clear Heq.
  unfold MixtureModel_init, ListModel_init. simpl.
  split; [reflexivity|]. split; [destruct weights; simpl in *; congruence|].
  split; [destruct params; simpl in *; congruence|]. split; [reflexivity|].
  split; [destruct weights as [|[]| | |]; simpl in *; congruence|].
  rewrite !map_map. simpl. rewrite map_id. split; [reflexivity|].
  split; [clear; induction out; simpl; congruence|].
  intros HF h' w' p'. rewrite HF. reflexivity.
Qed.

Lemma density_of_first (self : @ListModel E V) x m subs (w : V) ws (p : @kwargs V) ps :
  submodels self = m :: subs ->
  try_except_AttributeError
    (mixture_first d_logpdf self x (w :: ws) (p :: ps))
    (mixture_first d_logpmf self x (w :: ws) (p :: ps))
  = (d ← density_of m x p; Ok (num_mul w (np_exp d))).
Proof.
  intros Hsubs. unfold mixture_first, density_of, call_density. rewrite Hsubs. simpl.
  destruct (d_logpdf m) as [g|]; simpl.
  - destruct (g x p) as [d|[]]; reflexivity.
  - destruct (d_logpmf m) as [g'|]; simpl; [|reflexivity].
    destruct (g' x p) as [d|[]]; reflexivity.
Qed.

Lemma mixture_loop_frozen x (subs out : list (@dist E V)) (ps : list (@kwargs V)) :
  Forall3 frozen_from subs ps out ->
  forall (ws : list V) (acc : V),
    mixture_loop x acc (zip (zip ws out) (replicate (length out) []))
    = mixture_loop x acc (zip (zip ws subs) ps).
Proof.
  induction 1 as [|m p m' subs ps out [_ Hd] _ IH]; intros ws acc.
  - destruct ws; reflexivity.
  - destruct ws as [|w ws]; [reflexivity|]. simpl.
    fold (density_of m' x []). fold (density_of m x p). rewrite Hd.
    destruct (density_of m x p); simpl; [apply IH|reflexivity].
Qed.

(** X11.  Freezing a mixture and evaluating it is evaluating it with the
    parameters: for a mixture that is not frozen with one dictionary per
    submodel, when every submodel called with its dictionary returns a
    submodel that has, with no parameters, the log-density of the original
    with the dictionary, [M(weights, parameters)] is returned and its
    [pdf(x)] is [M.pdf(x, weights, parameters)], the same value or the same
    exception. *)
Theorem mixture_freeze_then_pdf h self (ws : list V) (params : @pyobj V)
    (ps : list (@kwargs V)) (out : list (@dist E V)) :
  frozen self = false ->
  as_dicts h params = Ok ps ->
  Forall3 frozen_from (submodels self) ps out ->
  exists F,
    MixtureModel_call h self (PyNums ws) params = Ok F
    /\ frozen F = true
    /\ submodels F = out
    /\ forall h' x,
         MixtureModel_pdf h' F x PyNone PyNone
         = MixtureModel_pdf h self x (PyNums ws) params.
Proof.
  intros Hf Hps Hfr.
  assert (Hp : eq_None params = false) by (destruct params; simpl in *; congruence).
  assert (Hout : _freeze_submodels h self params = Ok out).
  { rewrite freeze_submodels_unfold, Hf, Hps. simpl. apply mapM_ok_iff.
    clear -Hfr. induction Hfr as [|m p m' subs ps out [[c [Hc Hm]] _] _ IH]; simpl.
    - constructor.
    - constructor; [|exact IH]. simpl. rewrite Hc. exact Hm. }
  unfold MixtureModel_call, _check_parameters. rewrite Hf, Hp. simpl. rewrite Hout. simpl.
  eexists. split; [reflexivity|].
  unfold MixtureModel_init, ListModel_init. simpl.
  rewrite !map_map. simpl. rewrite map_id.
  split; [reflexivity|]. split; [reflexivity|].
  intros h' x.
  unfold MixtureModel_pdf, MixtureModel_pdf_sum, _check_parameters.
  cbn [frozen parameters submodels andb negb eq_None mbind result_bind as_nums as_dicts].
  rewrite Hf, Hp. cbn [andb negb mbind result_bind eq_None as_nums]. rewrite Hps.
  cbn [mbind result_bind].
  destruct (submodels self) as [|m subs] eqn:Hsubs.
  - inversion Hfr; subst. unfold mixture_first. rewrite Hsubs. destruct ws; reflexivity.
  - inversion Hfr as [|m0 p m' subs0 ps' out' [_ Hd] Hrest]; subst.
    destruct ws as [|w ws]; [reflexivity|].
    cbn [length replicate].
    rewrite (density_of_first self x m subs w ws p ps' Hsubs).
    erewrite density_of_first by reflexivity.
    rewrite Hd. destruct (density_of m x p) as [d|]; [|reflexivity].
    cbn [mbind result_bind]. unfold rest. cbn [drop]. rewrite !drop_0.
    apply mixture_loop_frozen. exact Hrest.
Qed.
End Freezing.

Lemma mixture_call_result_witness :
  exists F,
    MixtureModel_call empty_store callable_mixture some_weights (PyDicts some_parameters)
    = Ok F
    /\ forall h' w' p', MixtureModel_call h' F w' p' = Raise (ValueError AlreadyFrozen).
Proof.
  eexists. split; [reflexivity|].
  refine (proj2 (proj2 (proj2 (proj2 (proj2 (proj2 (proj2
    (mixture_call_result empty_store callable_mixture some_weights
       (PyDicts some_parameters) _ eq_refl))))))) eq_refl).
Defined.

Lemma mixture_freeze_then_pdf_witness :
  exists F,
    MixtureModel_call empty_store callable_mixture some_weights (PyDicts some_parameters)
    = Ok F
    /\ forall x,
         MixtureModel_pdf empty_store F x PyNone PyNone
         = MixtureModel_pdf empty_store callable_mixture x some_weights
             (PyDicts some_parameters).
Proof.
  destruct (mixture_freeze_then_pdf empty_store callable_mixture
              [(3 / 10)%R; (7 / 10)%R] (PyDicts some_parameters) some_parameters
              [frozen_atom shifted [("loc", 0%R)]; frozen_atom shifted [("loc", 2%R)]]
              eq_refl eq_refl)
    as (F & Hcall & _ & _ & Hpdf).
  - repeat constructor; try (eexists; split; reflexivity); intros x; reflexivity.
  - exists F. split; [exact Hcall|]. intros x. apply Hpdf.
Defined.

Section JointObjects.
Context {E V : Type} `{Numeric V}.
Implicit Types (self F S : @JointDist E V) (h : @store E V).

(** X12.  When [JointDist.__call__] returns, the object was not frozen and
    parameters were given; the new object is frozen, has the frozen
    submodels, holds the very table of replacements of the old one, counts
    one variate for each submodel whatever the old one counted, and keeps
    the list of parameters it was given: a list passed by reference is
    stored as that reference and the store is left as it is.  Calling the
    new object again raises the "already frozen" [ValueError]. *)
Theorem joint_call_result self (params : @pyobj V) h F h' :
  JointDist_call self params h = (Ok F, h') ->
  frozen (base self) = false
  /\ params <> PyNone
  /\ frozen (base F) = true
  /\ _freeze_submodels h (base self) params = Ok (submodels (base F))
  /\ submodel_logpdf_replacements F = submodel_logpdf_replacements self
  /\ override_lists h' = override_lists h
  /\ dims (base F) = replicate (length (submodels (base F))) 1
  /\ (forall l, params = PyRef l -> parameters (base F) = PyRef l /\ h' = h)
  /\ (forall ps, params = PyDicts ps ->
        parameters (base F) = PyRef (next_loc h)
        /\ as_dicts h' (parameters (base F)) = Ok ps)
  /\ (forall p h2, JointDist_call F p h2 = (Raise (ValueError AlreadyFrozen), h2)).
Proof.
  unfold JointDist_call, _check_parameters.
  destruct (frozen (base self)) eqn:Hf; [intros Heq; inversion Heq|]. simpl.
  destruct (eq_None params) eqn:Hp; simpl; [intros Heq; inversion Heq|].
  destruct (_freeze_submodels h (base self) params) as [out|] eqn:Hout; simpl;
    [|intros Heq; inversion Heq].
  assert (Hlist : (exists ps, params = PyDicts ps) \/ (exists l, params = PyRef l)).
  { rewrite freeze_submodels_unfold, Hf in Hout.
    destruct params; simpl in Hout; try discriminate; eauto. }
  assert (Hdims : forall out : list (@dist E V),
             map (fun s : @entry E V => match s with Bare _ => 1 | WithDims _ d => d end)
                 (map Bare out) = replicate (length (map (fun s : @entry E V =>
                   match s with Bare m => m | WithDims m _ => m end) (map Bare out))) 1).
  { clear. induction out; simpl; congruence. }
  destruct Hlist as [[ps ->]|[l ->]]; unfold JointDist_init; simpl;
    intros Heq; inversion Heq; subst; clear Heq; simpl;
    specialize (Hdims out); rewrite !map_map in Hdims; simpl in Hdims;
    rewrite map_id in Hdims; rewrite !map_map; simpl; rewrite map_id;
    (split; [reflexivity|]); (split; [congruence|]); (split; [reflexivity|]);
    (split; [reflexivity|]); (split; [reflexivity|]); (split; [reflexivity|]);
    (split; [exact Hdims|]); (split; [|split]);
    try (intros ? Heq; inversion Heq; subst; simpl; rewrite ?lookup_insert_eq; auto);
    intros p h2; reflexivity.
Qed.

(** X13.  [set_submodel_logpdf(i, f)] on a table that has the slot [i]
    replaces that slot and nothing else: the lists of parameters and the
    other tables are as before; setting the slot back to what it held
    gives the store back as it was.  An index that the table does not have
    raises [IndexError] and leaves the store as it is. *)
Theorem set_submodel_logpdf_slot self (i : Z) (f : option (@density E V)) h
    (fs : list (option (@density E V))) :
  as_overrides h (submodel_logpdf_replacements self) = Ok fs ->
  (forall k old, py_index (length fs) i = Ok k -> fs !! k = Some old ->
     exists h1,
       set_submodel_logpdf self i f h = (Ok (), h1)
       /\ as_overrides h1 (submodel_logpdf_replacements self) = Ok (<[k := f]> fs)
       /\ dict_lists h1 = dict_lists h
       /\ next_loc h1 = next_loc h
       /\ (forall l, l <> submodel_logpdf_replacements self ->
             override_lists h1 !! l = override_lists h !! l)
       /\ set_submodel_logpdf self i old h1 = (Ok (), h))
  /\ (py_index (length fs) i = Raise IndexError ->
      set_submodel_logpdf self i f h = (Raise IndexError, h)).
Proof.
  intros Hfs. unfold as_overrides in Hfs.
  destruct (override_lists h !! submodel_logpdf_replacements self) as [fs'|] eqn:Hl;
    [|discriminate].
  inversion Hfs; subst fs'. clear Hfs. split.
  - intros k old Hk Hold. unfold set_submodel_logpdf, as_overrides. rewrite Hl. simpl.
    rewrite Hk. simpl. eexists. split; [reflexivity|]. simpl.
    rewrite lookup_insert_eq. split; [reflexivity|]. split; [reflexivity|].
    split; [reflexivity|]. split.
    + intros l Hne. rewrite lookup_insert_ne by congruence. reflexivity.
    + simpl. rewrite length_insert, Hk. simpl.
      rewrite list_insert_insert_eq, insert_insert_eq.
      rewrite (list_insert_id fs k old Hold), (insert_id _ _ _ Hl).
      destruct h; reflexivity.
  - intros Hk. unfold set_submodel_logpdf, as_overrides. rewrite Hl. simpl.
    rewrite Hk. reflexivity.
Qed.

Lemma py_index_cases (n : nat) (i : Z) :
  (exists k, py_index n i = Ok k /\ k < n) \/ py_index n i = Raise IndexError.
Proof.
  unfold py_index.
  destruct (Z.leb_spec 0 i), (Z.ltb_spec i (Z.of_nat n)),
    (Z.leb_spec (- Z.of_nat n) i), (Z.ltb_spec i 0); simpl; try lia; auto;
    left; eexists; (split; [reflexivity|lia]).
Qed.

Lemma picked_entries_fields (subs : list (@dist E V)) (ds : list nat) (sel : list Z)
    (entries : list (@entry E V)) :
  mapM (fun i => m ← item_at subs i; d ← item_at ds i; Ok (WithDims m d)) sel = Ok entries ->
  mapM (item_at subs) sel
    = Ok (map (fun s => match s with Bare m => m | WithDims m _ => m end) entries)
  /\ mapM (item_at ds) sel
    = Ok (map (fun s => match s with Bare _ => 1 | WithDims _ d => d end) entries)
  /\ length entries = length sel.
Proof.
  revert entries. induction sel as [|i sel IH]; intros entries; simpl.
  - intros Heq. inversion Heq. auto.
  - destruct (item_at subs i) as [m|]; simpl; [|discriminate].
    destruct (item_at ds i) as [d|]; simpl; [|discriminate].
    destruct (mapM _ sel) as [rest_entries|]; simpl; [|discriminate].
    intros Heq. inversion Heq; subst. clear Heq.
    destruct (IH rest_entries eq_refl) as (Hs & Hd & Hl). simpl.
    rewrite Hs, Hd, Hl. auto.
Qed.

(** X14.  [JointDist.split(selection)] either raises and leaves the store
    as it is, or returns a new object that has the frozen state of this
    one, the selected submodels with their numbers of variates, in the
    order of the selection, and a table of replacements of its own, newly
    made, that holds the selected entries of this one's table.  When this
    object is frozen the new one has a parameter list of its own, newly
    made too, with the selected entries; otherwise it has none.  No list
    that existed before the call is changed. *)
Theorem joint_split_result self (sel : list Z) h (r : result (@JointDist E V)) h' :
  JointDist_split self sel h = (r, h') ->
  (forall e, r = Raise e -> h' = h)
  /\ (forall part, r = Ok part ->
      frozen (base part) = frozen (base self)
      /\ N_submodels (base part) = length sel
      /\ mapM (item_at (submodels (base self))) sel = Ok (submodels (base part))
      /\ mapM (item_at (dims (base self))) sel = Ok (dims (base part))
      /\ submodel_logpdf_replacements part = next_loc h
      /\ as_overrides h' (submodel_logpdf_replacements part)
         = (fs ← as_overrides h (submodel_logpdf_replacements self);
            mapM (item_at fs) sel)
      /\ (if frozen (base self)
          then parameters (base part) = PyRef (S (next_loc h))
               /\ as_dicts h' (parameters (base part))
                  = mapM (fun i => ps ← as_dicts h (parameters (base self)); item_at ps i)
                         sel
          else parameters (base part) = PyNone)
      /\ forall l, l < next_loc h ->
           dict_lists h' !! l = dict_lists h !! l
           /\ override_lists h' !! l = override_lists h !! l).
Proof.
  unfold JointDist_split.
  destruct (mapM (fun i => m ← item_at (submodels (base self)) i;
                           d ← item_at (dims (base self)) i;
                           Ok (WithDims m d)) sel) as [entries|e0] eqn:Hentries;
    cbn [mbind result_bind].
  2:{ destruct (frozen (base self)); intros Heq; inversion Heq; subst;
      (split; [reflexivity|discriminate]). }
  apply picked_entries_fields in Hentries. destruct Hentries as (Hsubs & Hdims & Hlen).
  destruct (frozen (base self)) eqn:Hf.
  - destruct (mapM (fun i => ps ← as_dicts h (parameters (base self)); item_at ps i) sel)
      as [ps|e1] eqn:Hps; cbn [mbind result_bind].
    2:{ intros Heq; inversion Heq; subst. split; [reflexivity|discriminate]. }
    destruct (fs ← as_overrides h (submodel_logpdf_replacements self); mapM (item_at fs) sel)
      as [fs|e2] eqn:Hfs; cbn [mbind result_bind].
    2:{ intros Heq; inversion Heq; subst. split; [reflexivity|discriminate]. }
    unfold JointDist_init, new_override_list, new_dict_list, ListModel_init. simpl.
    intros Heq; inversion Heq; subst. clear Heq. split; [discriminate|].
    intros part Hpart. inversion Hpart; subst. clear Hpart. simpl.
    unfold as_overrides. simpl.
    rewrite lookup_insert_eq, lookup_insert_eq.
    repeat split; auto.
    + rewrite lookup_insert_ne by lia. reflexivity.
    + rewrite lookup_insert_ne by lia. reflexivity.
  - destruct (fs ← as_overrides h (submodel_logpdf_replacements self); mapM (item_at fs) sel)
      as [fs|e2] eqn:Hfs; cbn [mbind result_bind].
    2:{ intros Heq; inversion Heq; subst. split; [reflexivity|discriminate]. }
    unfold JointDist_init, new_override_list, ListModel_init. simpl.
    intros Heq; inversion Heq; subst. clear Heq. split; [discriminate|].
    intros part Hpart. inversion Hpart; subst. clear Hpart. simpl.
    unfold as_overrides. simpl.
    rewrite lookup_insert_eq.
    repeat split; auto.
    rewrite lookup_insert_ne by lia. reflexivity.
Qed.
End JointObjects.

Section JointDensities.
Context {E V : Type} `{Numeric V}.
Implicit Types (self F : @JointDist E V) (h : @store E V).

Lemma logpdf_loop_length self rows : forall i acc ls,
  logpdf_loop self i rows acc = Ok ls -> length ls = length acc + length rows.
Proof.
  induction rows as [|[[[xi m] f] p] rows IH]; intros i acc ls; simpl.
  - intros Heq. inversion Heq. lia.
  - destruct (match f with Some alt => alt xi p | None => submodel_logpdf self (i + 1) xi p end)
      as [l|]; simpl; [|discriminate].
    intros Hloop. apply IH in Hloop. rewrite Hloop, length_app. simpl. lia.
Qed.

Lemma joint_rows_length self (x_split : list (ndarray E)) fs (ps : list (@kwargs V)) :
  length (joint_rows self x_split fs ps)
  = Nat.min (Nat.min (Nat.min (length x_split - 1) (length (submodels (base self)) - 1))
                     (length fs - 1)) (length ps - 1).
Proof. unfold joint_rows, rest. rewrite !length_zip, !length_drop. reflexivity. Qed.

Lemma item_length {X} (l : list X) (k : nat) (x : X) : item l k = Ok x -> k < length l.
Proof.
  unfold item. destruct (l !! k) eqn:Hk; [|discriminate].
  intros _. eapply lookup_lt_Some. exact Hk.
Qed.

Lemma logpdf_list_unfrozen_store self (x : ndarray E) (params : @pyobj V) h :
  frozen (base self) = false ->
  snd (JointDist_logpdf_list self x params h) = h.
Proof.
  intros Hf. unfold JointDist_logpdf_list. rewrite Hf.
  destruct (pars ← _check_parameters (base self) params;
            x_split ← ListModel_split_data (base self) (atleast_2d x);
            Ok (pars, x_split)) as [[pars x_split]|e]; reflexivity.
Qed.

(** X15.  On an object that is not frozen every call of [logpdf_list],
    one that raises included, leaves the store as it is; and when a call
    returns with at least one submodel, the list has one log-density for
    each row of [zip] over the parts of the data, the submodels, the table
    of replacements and the parameters: as many as the shortest of the
    four, with no exception for what the longer ones have in excess. *)
Theorem logpdf_list_unfrozen_length self (x : ndarray E) (params : @pyobj V) h :
  frozen (base self) = false ->
  snd (JointDist_logpdf_list self x params h) = h
  /\ forall ls : list V,
       submodels (base self) <> [] ->
       fst (JointDist_logpdf_list self x params h) = Ok ls ->
       exists x_split fs ps,
         ListModel_split_data (base self) (atleast_2d x) = Ok x_split
         /\ as_overrides h (submodel_logpdf_replacements self) = Ok fs
         /\ as_dicts h params = Ok ps
         /\ length ls = Nat.min (Nat.min (Nat.min (length x_split)
                                                  (length (submodels (base self))))
                                         (length fs)) (length ps).
Proof.
  intros Hf. split; [apply logpdf_list_unfrozen_store; exact Hf|].
  intros ls Hsubs. unfold JointDist_logpdf_list, _check_parameters. rewrite Hf.
  cbn [andb negb].
  destruct (eq_None params) eqn:Hp; cbn [mbind result_bind fst snd]; [discriminate|].
  destruct (ListModel_split_data (base self) (atleast_2d x)) as [x_split|] eqn:Hx;
    cbn [mbind result_bind fst snd]; [|discriminate].
  rewrite Hp.
  destruct (as_overrides h (submodel_logpdf_replacements self)) as [fs|];
    cbn [mbind result_bind fst snd]; [|discriminate].
  destruct (item fs 0) as [f0|] eqn:Hf0; cbn [mbind result_bind]; [|discriminate].
  destruct (item x_split 0) as [x0|] eqn:Hx0; cbn [mbind result_bind]; [|discriminate].
  destruct (as_dicts h params) as [ps|]; cbn [mbind result_bind]; [|discriminate].
  destruct (item ps 0) as [p0|] eqn:Hp0; cbn [mbind result_bind]; [|discriminate].
  match goal with |- mbind _ ?t = _ -> _ => destruct t as [l0|] end;
    cbn [mbind result_bind]; [|discriminate].
  apply item_length in Hf0, Hx0, Hp0.
  assert (Hn : 0 < length (submodels (base self))).
  { destruct (submodels (base self)); [congruence|simpl; lia]. }
  intros Hls. exists x_split, fs, ps.
  repeat split.
  destruct (1 <? length (submodels (base self))) eqn:Hone.
  - apply logpdf_loop_length in Hls. rewrite Hls, joint_rows_length. simpl.
    apply Nat.ltb_lt in Hone. lia.
  - inversion Hls. simpl. apply Nat.ltb_ge in Hone. lia.
Qed.

Lemma freeze_submodels_frozen_from h (L : @ListModel E V) (params : @pyobj V)
    (ps : list (@kwargs V)) (out : list (@dist E V)) :
  frozen L = false -> as_dicts h params = Ok ps ->
  Forall3 frozen_from (submodels L) ps out ->
  _freeze_submodels h L params = Ok out.
Proof.
  intros Hf Hps Hfr. rewrite freeze_submodels_unfold, Hf, Hps. simpl. apply mapM_ok_iff.
  clear -Hfr. induction Hfr as [|m p m' subs ps out [[c [Hc Hm]] _] _ IH]; simpl.
  - constructor.
  - constructor; [|exact IH]. simpl. rewrite Hc. exact Hm.
Qed.

Lemma mute_loop_ref F (l : loc) (fs : list (option (@density E V))) :
  forall (m k : nat) h (cur : list (@kwargs V)),
    override_lists h !! submodel_logpdf_replacements F = Some fs ->
    dict_lists h !! l = Some cur ->
    k + m <= length fs -> k + m <= length cur ->
    exists h' cur',
      mute_loop F (seq k m) (PyRef l) h = (Ok (PyRef l), h')
      /\ override_lists h' = override_lists h
      /\ dict_lists h' !! l = Some cur'
      /\ length cur' = length cur
      /\ forall i, cur' !! i =
            if decide (k <= i < k + m)
            then match fs !! i with Some None => Some [] | _ => cur !! i end
            else cur !! i.
Proof.
  induction m as [|m IH]; intros k h cur Hfs Hcur Hkf Hkc.
  - exists h, cur. simpl. repeat split; auto.
    intros i. destruct (decide (k <= i < k + 0)); [lia|reflexivity].
  - cbn [seq mute_loop]. unfold as_overrides. rewrite Hfs. cbn [mbind result_bind].
    destruct (lookup_lt_is_Some_2 fs k ltac:(lia)) as [f Hf]. unfold item. rewrite Hf.
    destruct f as [alt|].
    + destruct (IH (S k) h cur Hfs Hcur ltac:(lia) ltac:(lia))
        as (h' & cur' & Hloop & Hov & Hl & Hlen & Hat).
      exists h', cur'. repeat split; auto.
      intros i. rewrite Hat.
      destruct (decide (S k <= i < S k + m)), (decide (k <= i < k + S m)); try lia;
        try reflexivity.
      assert (i = k) by lia. subst i. rewrite Hf. reflexivity.
    + unfold setitem_dicts. rewrite Hcur.
      destruct (Nat.ltb_spec k (length cur)) as [Hlt|]; [|lia].
      set (h2 := mk_store (<[l := <[k := []]> cur]> (dict_lists h)) (override_lists h)
                   (next_loc h)).
      destruct (IH (S k) h2 (<[k := []]> cur)) as (h' & cur' & Hloop & Hov & Hl & Hlen & Hat).
      { exact Hfs. }
      { simpl. apply lookup_insert_eq. }
      { lia. }
      { rewrite length_insert. lia. }
      exists h', cur'. rewrite length_insert in Hlen. repeat split; auto.
      intros i. rewrite Hat.
      destruct (decide (i = k)) as [->|Hne].
      * rewrite list_lookup_insert_eq by exact Hlt. rewrite Hf.
        destruct (decide (S k <= k < S k + m)), (decide (k <= k < k + S m)); try lia.
        reflexivity.
      * rewrite list_lookup_insert_ne by congruence.
        destruct (decide (S k <= i < S k + m)), (decide (k <= i < k + S m)); try lia;
          reflexivity.
Qed.

Lemma mute_loop_all F (l : loc) (fs : list (option (@density E V))) h
    (ps : list (@kwargs V)) :
  override_lists h !! submodel_logpdf_replacements F = Some fs ->
  dict_lists h !! l = Some ps ->
  length fs = length ps ->
  exists h',
    mute_loop F (seq 0 (length ps)) (PyRef l) h = (Ok (PyRef l), h')
    /\ override_lists h' = override_lists h
    /\ dict_lists h' !! l = Some (muted fs ps).
Proof.
  intros Hfs Hps Hlen.
  destruct (mute_loop_ref F l fs (length ps) 0 h ps Hfs Hps ltac:(lia) ltac:(lia))
    as (h' & cur' & Hloop & Hov & Hl & Hlen' & Hat).
  exists h'. split; [exact Hloop|]. split; [exact Hov|]. rewrite Hl. f_equal.
  apply list_eq. intros i. rewrite Hat. unfold muted. rewrite lookup_zip_with.
  unfold kwargs in *.
  destruct (decide (0 <= i < 0 + length ps)) as [Hin|Hout].
  - destruct (lookup_lt_is_Some_2 fs i ltac:(lia)) as [f ->].
    destruct (lookup_lt_is_Some_2 ps i ltac:(lia)) as [p Hp]. rewrite Hp.
    destruct f; reflexivity.
  - rewrite (lookup_ge_None_2 ps i) by lia.
    rewrite (lookup_ge_None_2 fs i) by lia. reflexivity.
Qed.

Lemma drop_cons_lookup {X} (l : list X) (n : nat) (x : X) (t : list X) :
  drop n l = x :: t -> l !! n = Some x /\ drop (S n) l = t.
Proof.
  intros Hd. split.
  - rewrite <- (Nat.add_0_r n), <- lookup_drop, Hd. reflexivity.
  - replace (S n) with (n + 1) by lia. rewrite <- drop_drop, Hd. reflexivity.
Qed.

Lemma submodel_logpdf_frozen F (i : nat) (x : ndarray E) (m : @dist E V) :
  frozen (base F) = true -> submodels (base F) !! i = Some m ->
  submodel_logpdf F i x [] = density_of m x [].
Proof.
  intros Hf Hm. unfold submodel_logpdf, item, density_of. rewrite Hf, Hm. reflexivity.
Qed.

Lemma submodel_logpdf_unfrozen self (i : nat) (x : ndarray E) (m : @dist E V)
    (p : @kwargs V) :
  frozen (base self) = false -> dict_is_empty p = false ->
  submodels (base self) !! i = Some m ->
  submodel_logpdf self i x p = density_of m x p.
Proof.
  intros Hf Hp Hm. unfold submodel_logpdf, item, density_of. rewrite Hf, Hp, Hm.
  reflexivity.
Qed.

(** A term of [logpdf_list] that is not replaced, on the frozen object with
    the emptied parameters and on the original with the parameters. *)
Lemma logpdf_term_frozen self F (i : nat) (x : ndarray E) (m m' : @dist E V)
    (p : @kwargs V) :
  frozen (base self) = false -> frozen (base F) = true ->
  submodels (base self) !! i = Some m -> submodels (base F) !! i = Some m' ->
  frozen_from m p m' -> dict_is_empty p = false ->
  submodel_logpdf F i x [] = submodel_logpdf self i x p.
Proof.
  intros Hs HF Hm Hm' [_ Hd] Hp.
  rewrite (submodel_logpdf_frozen F i x m' HF Hm').
  rewrite (submodel_logpdf_unfrozen self i x m p Hs Hp Hm).
  apply Hd.
Qed.

Lemma logpdf_loop_frozen self F :
  frozen (base self) = false -> frozen (base F) = true ->
  forall (subsT : list (@dist E V)) (psT : list (@kwargs V)) (outT : list (@dist E V)),
    Forall3 frozen_from subsT psT outT ->
    forall (i : nat) (xs : list (ndarray E)) (fsT : list (option (@density E V)))
           (acc : list V),
      drop (S i) (submodels (base self)) = subsT ->
      drop (S i) (submodels (base F)) = outT ->
      Forall2 has_parameters fsT psT ->
      logpdf_loop F i (zip (zip (zip xs outT) fsT) (muted fsT psT)) acc
      = logpdf_loop self i (zip (zip (zip xs subsT) fsT) psT) acc.
Proof.
  intros Hs HF. induction 1 as [|m p m' subsT psT outT Hm _ IH];
    intros i xs fsT acc Hsubs Hout Hpars.
  - destruct xs; reflexivity.
  - inversion Hpars as [|f p0 fsT' psT0 Hp Hrest]; subst fsT. 
    destruct xs as [|xi xs]; [reflexivity|].
    apply drop_cons_lookup in Hsubs. destruct Hsubs as [Hi Hsubs].
    apply drop_cons_lookup in Hout. destruct Hout as [Hi' Hout].
    unfold muted. cbn [zip zip_with logpdf_loop]. fold (muted fsT' psT).
    rewrite Nat.add_1_r.
    destruct f as [alt|].
    + destruct (alt xi p) as [l|]; cbn [mbind result_bind]; [|reflexivity].
      apply (IH (S i) xs fsT' (acc ++ [l]) Hsubs Hout). assumption.
    + rewrite (logpdf_term_frozen self F (S i) xi m m' p Hs HF Hi Hi' Hm (Hp eq_refl)).
      destruct (submodel_logpdf self (S i) xi p) as [l|]; cbn [mbind result_bind];
        [|reflexivity].
      apply (IH (S i) xs fsT' (acc ++ [l]) Hsubs Hout). assumption.
Qed.

Lemma joint_call_dicts self (ps : list (@kwargs V)) (out : list (@dist E V)) h :
  frozen (base self) = false ->
  _freeze_submodels h (base self) (PyDicts ps) = Ok out ->
  JointDist_call self (PyDicts ps) h
  = (Ok (mk_JointDist
           (mk_ListModel (length out) (PyRef (next_loc h)) true
              (replicate (length out) 1) out)
           (submodel_logpdf_replacements self)),
     mk_store (<[next_loc h := ps]> (dict_lists h)) (override_lists h) (S (next_loc h))).
Proof.
  intros Hf Hout. unfold JointDist_call, _check_parameters. rewrite Hf.
  cbn [andb negb eq_None mbind result_bind]. rewrite Hout. cbn [mbind result_bind].
  unfold JointDist_init, new_dict_list, ListModel_init.
  cbn [eq_None eq_False is_True orb].
  rewrite !map_map, length_map. cbn. rewrite map_id.
  replace (map (fun _ : @dist E V => 1) out) with (replicate (length out) 1)
    by (clear; induction out; simpl; congruence).
  reflexivity.
Qed.

(** X16.  Freezing a joint distribution and asking for its log-densities
    is asking the original with the parameters: for an object that is not
    frozen, whose submodels have one variate each, with one dictionary per
    submodel, not empty where the log-density is not replaced, when every
    submodel called with its dictionary returns a submodel that has, with
    no parameters, the log-density of the original with the dictionary,
    [J(parameters)] is returned, and its [logpdf_list(x)] and [logpdf(x)]
    are [J.logpdf_list(x, parameters)] and [J.logpdf(x, parameters)]: the
    same values or the same exception. *)
Theorem joint_freeze_then_logpdf self (ps : list (@kwargs V)) (out : list (@dist E V))
    (fs : list (option (@density E V))) h :
  frozen (base self) = false ->
  dims (base self) = replicate (length (submodels (base self))) 1 ->
  as_overrides h (submodel_logpdf_replacements self) = Ok fs ->
  Forall3 frozen_from (submodels (base self)) ps out ->
  Forall2 has_parameters fs ps ->
  exists F h1,
    JointDist_call self (PyDicts ps) h = (Ok F, h1)
    /\ frozen (base F) = true
    /\ submodels (base F) = out
    /\ forall x,
         fst (JointDist_logpdf_list F x PyNone h1)
         = fst (JointDist_logpdf_list self x (PyDicts ps) h)
         /\ fst (JointDist_logpdf F x PyNone h1)
            = fst (JointDist_logpdf self x (PyDicts ps) h).
Proof.
  intros Hf Hdims Hfs Hfr Hpars.
  pose proof (freeze_submodels_frozen_from h (base self) (PyDicts ps) ps out Hf eq_refl Hfr)
    as Hout.
  rewrite (joint_call_dicts self ps out h Hf Hout).
  eexists _, _. split; [reflexivity|]. split; [reflexivity|]. split; [reflexivity|].
  set (F := mk_JointDist _ _). set (h1 := mk_store _ _ _).
  assert (Hlist : forall x,
             fst (JointDist_logpdf_list F x PyNone h1)
             = fst (JointDist_logpdf_list self x (PyDicts ps) h)).
  2:{ intros x. split; [apply Hlist|]. specialize (Hlist x). unfold JointDist_logpdf.
      destruct (JointDist_logpdf_list F x PyNone h1) as [r1 h2].
      destruct (JointDist_logpdf_list self x (PyDicts ps) h) as [r2 h3].
      simpl in *. rewrite Hlist. reflexivity. }
  intros x.
  assert (Hlen : length out = length (submodels (base self))).
  { symmetry. eapply Forall3_length_lr. exact Hfr. }
  assert (Hlenp : length ps = length (submodels (base self))).
  { symmetry. eapply Forall3_length_lm. exact Hfr. }
  assert (Hlenf : length fs = length ps) by (eapply Forall2_length; exact Hpars).
  unfold as_overrides in Hfs.
  destruct (override_lists h !! submodel_logpdf_replacements self) as [fs'|] eqn:Hov;
    [|discriminate].
  inversion Hfs; subst fs'. clear Hfs.
  destruct (mute_loop_all F (next_loc h) fs h1 ps) as (h2 & Hloop & Hov2 & Hmuted).
  { exact Hov. }
  { apply lookup_insert_eq. }
  { exact Hlenf. }
  unfold JointDist_logpdf_list, _check_parameters, ListModel_split_data.
  rewrite Hf, Hdims.
  cbn [F base frozen parameters dims submodels andb negb eq_None mbind result_bind].
  rewrite Hlen.
  destruct (split_data (atleast_2d x) (replicate (length (submodels (base self))) 1))
    as [x_split|]; cbn [mbind result_bind fst]; [|reflexivity].
  rewrite Hlenp in Hloop. cbn [eq_None]. rewrite Hloop.
  cbn [fst mbind result_bind as_dicts]. unfold as_overrides.
  rewrite Hov2, Hmuted. cbn [h1 F override_lists submodel_logpdf_replacements].
  rewrite Hov. cbn [mbind result_bind].
  unfold joint_rows. cbn [base submodels].
  inversion Hfr as [Hsubs Hps0 Hout0|m p m' subsT psT outT Hm Hrest Hsubs Hps0 Hout0].
  - subst ps. inversion Hpars; subst. reflexivity.
  - subst ps. inversion Hpars as [|f p0 fsT psT0 Hp Hrestp]; subst fs.
    unfold muted. cbn [zip_with item lookup list_lookup mbind result_bind].
    fold (muted fsT psT).
    destruct x_split as [|x0 xs]; [reflexivity|].
    cbn [item lookup list_lookup mbind result_bind].
    assert (HF : frozen (base F) = true) by reflexivity.
    assert (HsubF : submodels (base F) = m' :: outT) by (rewrite Hout0; reflexivity).
    rewrite HsubF. unfold rest. cbn [drop]. rewrite !drop_0.
    assert (Hloop_eq : forall acc,
               logpdf_loop F 0 (zip (zip (zip xs outT) fsT) (muted fsT psT)) acc
               = logpdf_loop self 0 (zip (zip (zip xs subsT) fsT) psT) acc).
    { intros acc. apply (logpdf_loop_frozen self F Hf HF subsT psT outT Hrest).
      - rewrite <- Hsubs. reflexivity.
      - rewrite HsubF. reflexivity.
      - exact Hrestp. }
    destruct f as [alt|].
    + destruct (alt x0 p) as [l0|]; cbn [mbind result_bind]; [|reflexivity].
      rewrite Hloop_eq. reflexivity.
    + rewrite (logpdf_term_frozen self F 0 x0 m m' p Hf HF).
      * destruct (submodel_logpdf self 0 x0 p) as [l0|]; cbn [mbind result_bind];
          [|reflexivity].
        rewrite Hloop_eq. reflexivity.
      * rewrite <- Hsubs. reflexivity.
      * rewrite HsubF. reflexivity.
      * exact Hm.
      * exact (Hp eq_refl).
Qed.
End JointDensities.

Lemma joint_call_result_witness :
  exists F h',
    JointDist_call (fst callable_joint) (PyDicts some_parameters) (snd callable_joint)
    = (Ok F, h')
    /\ frozen (base F) = true
    /\ as_dicts h' (parameters (base F)) = Ok some_parameters
    /\ forall p h2, JointDist_call F p h2 = (Raise (ValueError AlreadyFrozen), h2).
Proof.
  eexists _, _. split; [reflexivity|].
  destruct (joint_call_result (fst callable_joint) (PyDicts some_parameters)
              (snd callable_joint) _ _ eq_refl)
    as (_ & _ & Hfrozen & _ & _ & _ & _ & _ & Hdicts & Hagain).
  split; [exact Hfrozen|]. split; [exact (proj2 (Hdicts _ eq_refl))|exact Hagain].
Defined.

Lemma set_submodel_logpdf_slot_witness :
  exists h1,
    set_submodel_logpdf (fst callable_joint) 0 (Some constant_density) (snd callable_joint)
    = (Ok (), h1)
    /\ set_submodel_logpdf (fst callable_joint) 0 None h1 = (Ok (), snd callable_joint).
Proof.
  destruct (proj1 (set_submodel_logpdf_slot (fst callable_joint) 0 (Some constant_density)
                     (snd callable_joint) [None; None] eq_refl) 0 None eq_refl eq_refl)
    as (h1 & Hset & _ & _ & _ & _ & Hback).
  exists h1. split; [exact Hset|exact Hback].
Defined.

Lemma joint_split_result_witness :
  exists part h',
    JointDist_split (fst callable_joint) [1%Z] (snd callable_joint) = (Ok part, h')
    /\ N_submodels (base part) = 1
    /\ submodel_logpdf_replacements part = next_loc (snd callable_joint)
    /\ parameters (base part) = PyNone.
Proof.
  eexists _, _. split; [reflexivity|].
  destruct (proj2 (joint_split_result (fst callable_joint) [1%Z] (snd callable_joint)
                     _ _ eq_refl) _ eq_refl)
    as (_ & Hn & _ & _ & Hloc & _ & Hpars & _).
  split; [exact Hn|]. split; [exact Hloc|exact Hpars].
Defined.

Lemma logpdf_list_unfrozen_length_witness :
  snd (JointDist_logpdf_list (fst callable_joint) two_points (PyDicts some_parameters)
         (snd callable_joint)) = snd callable_joint
  /\ snd (JointDist_logpdf_list (fst callable_joint) two_points PyNone
            (snd callable_joint)) = snd callable_joint
  /\ fst (JointDist_logpdf_list (fst callable_joint) two_points PyNone
            (snd callable_joint)) = Raise (ValueError UnfrozenNoParameters).
Proof.
  split; [|split; [|reflexivity]].
  - exact (proj1 (logpdf_list_unfrozen_length (fst callable_joint) two_points
                    (PyDicts some_parameters) (snd callable_joint) eq_refl)).
  - exact (proj1 (logpdf_list_unfrozen_length (fst callable_joint) two_points
                    PyNone (snd callable_joint) eq_refl)).
Defined.

Lemma joint_freeze_then_logpdf_witness :
  exists F h1,
    JointDist_call (fst callable_joint) (PyDicts some_parameters) (snd callable_joint)
    = (Ok F, h1)
    /\ forall x,
         fst (JointDist_logpdf F x PyNone h1)
         = fst (JointDist_logpdf (fst callable_joint) x (PyDicts some_parameters)
                  (snd callable_joint)).
Proof.
  destruct (joint_freeze_then_logpdf (fst callable_joint) some_parameters
              [frozen_atom shifted [("loc", 0%R)]; frozen_atom shifted [("loc", 2%R)]]
              [None; None] (snd callable_joint) eq_refl eq_refl eq_refl)
    as (F & h1 & Hcall & _ & _ & Hsame).
  - repeat constructor; try (eexists; split; reflexivity); intros x; reflexivity.
  - repeat constructor; intros _; reflexivity.
  - exists F, h1. split; [exact Hcall|]. intros x. exact (proj2 (Hsame x)).
Defined.

Section Splitting.

Lemma string_app_cons (x : Ascii.ascii) (a b : string) :
  String x a +:+ b = String x (a +:+ b).
Proof. reflexivity. Qed.

Lemma string_app_nil_l (a : string) : "" +:+ a = a.
Proof. reflexivity. Qed.

Lemma string_app_assoc (a b c : string) : (a +:+ b) +:+ c = a +:+ (b +:+ c).
Proof.
  induction a as [|x a IH]; [reflexivity|].
  rewrite !string_app_cons, IH. reflexivity.
Qed.

Lemma string_app_nil_r (a : string) : a +:+ "" = a.
Proof.
  induction a as [|x a IH]; [reflexivity|]. rewrite string_app_cons, IH. reflexivity.
Qed.

Lemma prefix_split (sep s : string) :
  String.prefix sep s = true -> exists rest_s, s = sep +:+ rest_s.
Proof.
  revert s. induction sep as [|a sep IH]; intros s; simpl.
  - intros _. exists s. reflexivity.
  - destruct s as [|b s]; simpl; [discriminate|].
    destruct (Ascii.ascii_dec a b) as [->|]; [|discriminate].
    intros Hp. destruct (IH s Hp) as [rest_s ->]. exists rest_s. reflexivity.
Qed.

Lemma py_split_from_cons (sep : string) (s : string) : forall skip cur,
  exists p ps, py_split_from sep skip cur s = p :: ps.
Proof.
  induction s as [|c s IH]; intros skip cur; cbn [py_split_from]; [eauto|].
  destruct skip; [|apply IH].
  destruct (String.prefix sep (String c s)); [eauto|apply IH].
Qed.

(** Joining the pieces of a split with the separator gives the string
    back: after the characters still to be passed over, and behind the
    piece being read. *)
Lemma py_join_split_from (sep : string) :
  sep <> "" ->
  forall (s : string) (skip : nat) (cur pre rest_s : string),
    s = pre +:+ rest_s -> String.length pre = skip ->
    py_join sep (py_split_from sep skip cur s) = cur +:+ rest_s.
Proof.
  intros Hsep. induction s as [|c s IH]; intros skip cur pre rest_s Hs Hlen.
  - destruct pre; [|discriminate]. rewrite string_app_nil_l in Hs. subst rest_s.
    cbn [py_split_from py_join]. rewrite string_app_nil_r. reflexivity.
  - cbn [py_split_from]. destruct skip as [|skip].
    + destruct pre; [|discriminate]. rewrite string_app_nil_l in Hs. subst rest_s.
      destruct (String.prefix sep (String c s)) eqn:Hp.
      * destruct (prefix_split _ _ Hp) as [after Hafter].
        destruct sep as [|a sep']; [congruence|].
        rewrite string_app_cons in Hafter. inversion Hafter; subst a s. clear Hafter.
        cbn [String.length]. rewrite Nat.sub_1_r. cbn [Nat.pred].
        destruct (py_split_from_cons (String c sep') (sep' +:+ after)
                    (String.length sep') "") as (p & ps & Hsplit).
        pose proof (IH (String.length sep') "" sep' after eq_refl eq_refl) as Hjoin.
        rewrite Hsplit in Hjoin |- *. cbn [py_join] in Hjoin |- *.
        rewrite Hjoin. reflexivity.
      * rewrite (IH 0 (cur +:+ String c "") "" s eq_refl eq_refl).
        rewrite string_app_assoc. reflexivity.
    + destruct pre as [|c' pre]; [discriminate|]. rewrite string_app_cons in Hs.
      simpl in Hlen. inversion Hs; subst c' s. apply (IH skip cur pre rest_s eq_refl). lia.
Qed.

Lemma py_split_from_plain (t : string) : forall (s cur : string),
  mentions space s = false ->
  py_split_from " -> " 0 cur (s +:+ t) = py_split_from " -> " 0 (cur +:+ s) t.
Proof.
  induction s as [|c s IH]; intros cur Hs.
  - rewrite string_app_nil_l, string_app_nil_r. reflexivity.
  - cbn [mentions] in Hs. apply orb_false_elim in Hs. destruct Hs as [Hc Hs].
    rewrite string_app_cons. cbn [py_split_from String.prefix].
    match goal with
    | |- context [Ascii.ascii_dec ?a c] => destruct (Ascii.ascii_dec a c) as [Heq|_]
    end.
    + change (space = c) in Heq. subst c. rewrite Ascii.eqb_refl in Hc. discriminate.
    + rewrite (IH (cur +:+ String c "") Hs), string_app_assoc. reflexivity.
Qed.

Lemma py_split_from_whole (s cur : string) :
  mentions space s = false -> py_split_from " -> " 0 cur s = [cur +:+ s].
Proof.
  intros Hs. pose proof (py_split_from_plain "" s cur Hs) as Hsplit.
  rewrite string_app_nil_r in Hsplit. rewrite Hsplit. reflexivity.
Qed.

Lemma py_split_from_sep (cur val : string) :
  py_split_from " -> " 0 cur (" -> " +:+ val) = cur :: py_split_from " -> " 0 "" val.
Proof. destruct val; reflexivity. Qed.

(** X17.  A rename rule is split at [" -> "]: a rule that is accepted is
    its key, the separator and its value, in this order, so nothing of the
    rule is lost; and a rule written as a key, the separator and a value
    with no space in the key and none in the value is accepted, with this
    key and this value.  Every other outcome is the [ValueError] of an
    unpacking that fails. *)
Theorem parse_rule_cases (rule : string) :
  (forall key val, parse_rule rule = Ok (key, val) -> rule = key +:+ " -> " +:+ val)
  /\ (forall key val, mentions space key = false -> mentions space val = false ->
      rule = key +:+ " -> " +:+ val -> parse_rule rule = Ok (key, val))
  /\ (forall e, parse_rule rule = Raise e -> e = ValueError UnpackFailure).
Proof.
  split; [|split].
  - intros key val. unfold parse_rule.
    pose proof (py_join_split_from " -> " ltac:(discriminate) rule 0 "" "" rule
                  eq_refl eq_refl) as Hjoin.
    fold (py_split " -> " rule) in Hjoin.
    destruct (py_split " -> " rule) as [|k [|v [|w l]]]; try discriminate.
    intros Heq. inversion Heq; subst. cbn [py_join] in Hjoin. symmetry. exact Hjoin.
  - intros key val Hk Hv ->. unfold parse_rule, py_split.
    rewrite (py_split_from_plain (" -> " +:+ val) key "" Hk).
    rewrite py_split_from_sep, (py_split_from_whole val "" Hv). reflexivity.
  - intros e. unfold parse_rule.
    destruct (py_split " -> " rule) as [|k [|v [|w l]]]; intros Heq; inversion Heq;
      reflexivity.
Qed.
End Splitting.

Section Dictionaries.
Context {X : Type}.
Implicit Types (d : list (string * X)).

Lemma dict_get_None d (key : string) : key ∉ dict_keys d -> dict_get d key = None.
Proof.
  induction d as [|[k v] d IH]; simpl; [reflexivity|].
  intros Hk. apply not_elem_of_cons in Hk. destruct Hk as [Hne Hk].
  destruct (String.eqb_spec k key); [congruence|]. apply IH. exact Hk.
Qed.

Lemma dict_get_Some_key d (key : string) (x : X) :
  dict_get d key = Some x -> key ∈ dict_keys d.
Proof.
  induction d as [|[k v] d IH]; simpl; [discriminate|].
  destruct (String.eqb_spec k key) as [->|_]; intros Hx.
  - apply list_elem_of_here.
  - apply list_elem_of_further, IH, Hx.
Qed.

Lemma dict_set_fresh d (key : string) (x : X) :
  key ∉ dict_keys d -> dict_set d key x = d ++ [(key, x)].
Proof.
  induction d as [|[k v] d IH]; simpl; [reflexivity|].
  intros Hk. apply not_elem_of_cons in Hk. destruct Hk as [Hne Hk].
  destruct (String.eqb_spec k key); [congruence|]. rewrite (IH Hk). reflexivity.
Qed.

Lemma dict_set_keys d (key : string) (x : X) :
  dict_keys (dict_set d key x)
  = if decide (key ∈ dict_keys d) then dict_keys d else dict_keys d ++ [key].
Proof.
  unfold dict_keys. induction d as [|[k v] d IH]; cbn [dict_set map fst].
  - destruct (decide (key ∈ [])) as [Hin|_]; [inversion Hin|reflexivity].
  - destruct (String.eqb_spec k key) as [->|Hne]; cbn [map fst].
    + destruct (decide (key ∈ key :: map fst d)) as [_|Hout]; [reflexivity|].
      exfalso. apply Hout, list_elem_of_here.
    + rewrite IH.
      destruct (decide (key ∈ map fst d)) as [Hin|Hout];
        destruct (decide (key ∈ k :: map fst d)) as [Hin'|Hout'].
      * reflexivity.
      * exfalso. apply Hout', list_elem_of_further, Hin.
      * exfalso. apply elem_of_cons in Hin'. destruct Hin' as [->|Hin']; congruence.
      * reflexivity.
Qed.

Lemma dict_set_keys_NoDup d (key : string) (x : X) :
  NoDup (dict_keys d) -> NoDup (dict_keys (dict_set d key x)).
Proof.
  intros Hd. rewrite dict_set_keys. case_decide as Hin; [exact Hd|].
  apply NoDup_app. split; [exact Hd|]. split.
  - intros k Hk Hk'. apply list_elem_of_singleton in Hk'. subst k. contradiction.
  - apply NoDup_singleton.
Qed.

(** Setting keys that are new, one after the other, appends the pairs. *)
Lemma fold_dict_set_fresh (pairs : list (string * X)) : forall d,
  NoDup (dict_keys d ++ dict_keys pairs) ->
  foldl (fun m kv => dict_set m (fst kv) (snd kv)) d pairs = d ++ pairs.
Proof.
  induction pairs as [|[k v] pairs IH]; intros d Hnd; simpl.
  - rewrite app_nil_r. reflexivity.
  - simpl in Hnd. apply NoDup_app in Hnd. destruct Hnd as (Hd & Hdisj & Hp).
    apply NoDup_cons in Hp. destruct Hp as [Hk Hp].
    assert (Hfresh : k ∉ dict_keys d).
    { intros Hin. apply (Hdisj k Hin), list_elem_of_here. }
    rewrite (dict_set_fresh d k v Hfresh), IH.
    + rewrite <- app_assoc. reflexivity.
    + unfold dict_keys. rewrite map_app. simpl. rewrite <- app_assoc. simpl.
      apply NoDup_app. split; [exact Hd|]. split.
      * intros a Ha Ha'. apply elem_of_cons in Ha'. destruct Ha' as [->|Ha'].
        -- contradiction.
        -- apply (Hdisj a Ha), list_elem_of_further, Ha'.
      * apply NoDup_cons. split; assumption.
Qed.
End Dictionaries.

Section RenameMaps.
Implicit Types (renaming : list (string * string)).

Lemma rules_dict_keys_NoDup (kvs : list (string * string)) : NoDup (dict_keys (rules_dict kvs)).
Proof.
  unfold rules_dict.
  assert (Hgen : forall d, NoDup (dict_keys d) ->
            NoDup (dict_keys (foldl (fun m kv => dict_set m (fst kv) (snd kv)) d kvs))).
  { induction kvs as [|kv kvs IH]; intros d Hd; simpl; [exact Hd|].
    apply IH, dict_set_keys_NoDup, Hd. }
  apply Hgen. apply NoDup_nil_2.
Qed.

Lemma first_key_of_None renaming (arg : string) :
  first_key_of renaming arg = None -> arg ∉ dict_values renaming.
Proof.
  unfold first_key_of. induction renaming as [|[k v] renaming IH]; simpl.
  - intros _ Hin. inversion Hin.
  - rewrite filter_cons. simpl. case_decide as Hv; [discriminate|].
    intros Hnone Hin. apply elem_of_cons in Hin. destruct Hin as [->|Hin]; [congruence|].
    exact (IH Hnone Hin).
Qed.

Lemma first_key_of_Some renaming (arg key : string) :
  NoDup (dict_keys renaming) ->
  first_key_of renaming arg = Some key -> dict_get renaming key = Some arg.
Proof.
  unfold first_key_of. induction renaming as [|[k v] renaming IH]; simpl.
  - intros _ Hx. discriminate.
  - intros Hnd. apply NoDup_cons in Hnd. destruct Hnd as [Hk Hnd].
    rewrite filter_cons. simpl. case_decide as Hv; simpl.
    + intros Heq. inversion Heq; subst. rewrite String.eqb_refl. reflexivity.
    + intros Hsome. specialize (IH Hnd Hsome).
      destruct (String.eqb_spec k key) as [->|_]; [|exact IH].
      exfalso. apply Hk. eapply dict_get_Some_key. exact IH.
Qed.
End RenameMaps.

Section TransDists.
Context {E V : Type}.
Variable get_dist_args : @dist E V -> list string.
Variable get_func_args : @transform V -> list string.
Implicit Types (orig : @dist E V) (func : option (@transform V)) (T : @TransDist E V).

(** The loop over the rules, from any dictionary built so far. *)
Lemma fold_rules (rules : list string) : forall acc : list (string * string),
  foldl (fun acc rule => renaming ← acc;
                         '(key, val) ← parse_rule rule;
                         Ok (dict_set renaming key val))
        (Ok acc) rules
  = (kvs ← mapM parse_rule rules;
     Ok (foldl (fun m kv => dict_set m (fst kv) (snd kv)) acc kvs)).
Proof.
  induction rules as [|r rules IH]; intros acc; [reflexivity|].
  cbn [foldl mapM mbind result_bind].
  destruct (parse_rule r) as [[k v]|e]; cbn [mbind result_bind].
  - rewrite IH. destruct (mapM parse_rule rules); reflexivity.
  - clear. induction rules as [|r' rules IH]; [reflexivity|]. exact IH.
Qed.

Lemma mapM_parse_rule_cases (rules : list string) :
  (exists kvs, mapM parse_rule rules = Ok kvs
               /\ Forall (fun r => is_ok (parse_rule r) = true) rules)
  \/ (mapM parse_rule rules = Raise (ValueError UnpackFailure)
      /\ Exists (fun r => is_ok (parse_rule r) = false) rules).
Proof.
  induction rules as [|r rules IH]; [left; exists []; split; [reflexivity|constructor]|].
  cbn [mapM]. destruct (parse_rule r) as [kv|e] eqn:Hr; cbn [mbind result_bind].
  - destruct IH as [(kvs & -> & Hall)|[-> Hex]].
    + left. eexists. split; [reflexivity|]. constructor; [rewrite Hr; reflexivity|exact Hall].
    + right. split; [reflexivity|]. apply Exists_cons_tl. exact Hex.
  - right. split.
    + unfold parse_rule in Hr.
      destruct (py_split " -> " r) as [|k [|v [|w l]]]; inversion Hr; reflexivity.
    + apply Exists_cons_hd. rewrite Hr. reflexivity.
Qed.

(** The constructor with the loop over the rules read as one pass that
    splits them and one that fills the dictionary. *)
Lemma TransDist_init_unfold orig func (rules func_args : option (list string)) :
  TransDist_init get_dist_args get_func_args orig func rules func_args
  = (kvs ← mapM parse_rule (default [] rules);
     let names :=
       match func_args with
       | Some names => names
       | None =>
           map (fun arg => default arg (first_key_of (rules_dict kvs) arg))
               (match func with
                | None => get_dist_args orig
                | Some t => get_func_args t
                end)
       end in
     if length names =? 0 then Raise (ValueError NoArguments)
     else Ok (mk_TransDist
                (match func_args with
                 | Some _ => func
                 | None => Some (default null_transform func)
                 end)
                orig (rules_dict kvs) names)).
Proof.
  unfold TransDist_init. destruct rules as [rules|].
  - change (default [] (Some rules)) with rules. rewrite fold_rules.
    destruct (mapM parse_rule rules) as [kvs|e]; cbn [mbind result_bind]; [|reflexivity].
    fold (rules_dict kvs). destruct func_args as [names|], func as [t|]; reflexivity.
  - destruct func_args as [names|], func as [t|]; reflexivity.
Qed.

(** X18.  [TransDist.__init__] raises nothing but two [ValueError]s: that
    of the unpacking exactly when rules are given and one of them does not
    split into a key and a value, whatever the other arguments are, and
    that of the missing arguments.  When it returns, the object wraps the
    distribution it was given, has at least one argument name, has the
    dictionary of the rules as its rename map, and has the names and the
    transform function it was given when the names were given; when they
    were not, the transform function is the one given, or the null
    transform. *)
Theorem TransDist_init_cases orig func (rules func_args : option (list string)) :
  (forall e, TransDist_init get_dist_args get_func_args orig func rules func_args = Raise e ->
     e = ValueError UnpackFailure \/ e = ValueError NoArguments)
  /\ (TransDist_init get_dist_args get_func_args orig func rules func_args
        = Raise (ValueError UnpackFailure)
      <-> exists rs, rules = Some rs
                     /\ Exists (fun r => is_ok (parse_rule r) = false) rs)
  /\ (forall T,
        TransDist_init get_dist_args get_func_args orig func rules func_args = Ok T ->
        orig_dist T = orig
        /\ args T <> []
        /\ (exists kvs, mapM parse_rule (default [] rules) = Ok kvs
                        /\ renaming_map T = rules_dict kvs)
        /\ (forall names, func_args = Some names ->
              args T = names /\ transform_func T = func)
        /\ (func_args = None ->
              transform_func T = Some (default null_transform func))).
Proof.
  rewrite TransDist_init_unfold.
  destruct (mapM_parse_rule_cases (default [] rules)) as [(kvs & Hkvs & Hall)|[Hbad Hex]].
  - rewrite Hkvs. cbn [mbind result_bind].
    set (names := match func_args with Some names => names | None => _ end).
    destruct (length names =? 0) eqn:Hlen.
    + split; [intros e Heq; inversion Heq; auto|]. split; [|discriminate].
      split; [discriminate|]. intros (rs & -> & Hex). simpl in Hall.
      apply Exists_exists in Hex. destruct Hex as (r & Hr & Hfail).
      rewrite Forall_forall in Hall. rewrite (Hall r Hr) in Hfail. discriminate.
    + split; [discriminate|]. split.
      * split; [discriminate|]. intros (rs & -> & Hex). simpl in Hall.
        apply Exists_exists in Hex. destruct Hex as (r & Hr & Hfail).
        rewrite Forall_forall in Hall. rewrite (Hall r Hr) in Hfail. discriminate.
      * intros T Heq. inversion Heq; subst T. clear Heq. cbn.
        split; [reflexivity|]. split.
        { intros Hnil. rewrite Hnil in Hlen. discriminate. }
        split; [eauto|]. split.
        { intros names' ->. auto. }
        { intros ->. reflexivity. }
  - rewrite Hbad. cbn [mbind result_bind].
    split; [intros e Heq; inversion Heq; auto|]. split; [|discriminate].
    split; [|reflexivity]. intros _.
    destruct rules as [rs|]; [eauto|]. inversion Hex.
Qed.

(** X19.  When the argument names are given and no transform function
    is, the constructor leaves the transform function unset, the null
    transform being put in only where the names are inferred: every call
    of [get_orig_args], [logpdf], [logpmf] and [rvs] on the object it
    returns raises [TypeError], whatever the parameters. *)
Theorem explicit_args_need_transform orig (rules : option (list string))
    (names : list string) T :
  TransDist_init get_dist_args get_func_args orig None rules (Some names) = Ok T ->
  transform_func T = None
  /\ args T = names
  /\ forall (params : @kwargs V) (x : ndarray E) (size : Z),
       get_orig_args T params = Raise TypeError
       /\ TransDist_logpdf T x params = Raise TypeError
       /\ TransDist_logpmf T x params = Raise TypeError
       /\ TransDist_rvs T size params = Raise TypeError.
Proof.
  rewrite TransDist_init_unfold.
  destruct (mapM parse_rule (default [] rules)) as [kvs|]; cbn [mbind result_bind];
    [|discriminate].
  destruct (length names =? 0); [discriminate|].
  intros Heq. inversion Heq; subst T. clear Heq.
  split; [reflexivity|]. split; [reflexivity|]. intros params x size.
  unfold TransDist_logpdf, TransDist_logpmf, TransDist_rvs, get_orig_args. cbn. auto.
Qed.

Lemma renamed_parameters_plain T (params : @kwargs V) :
  renaming_map T = [] -> NoDup (dict_keys params) ->
  renamed_parameters T params = params.
Proof.
  intros Hmap Hnd. unfold renamed_parameters. rewrite Hmap.
  transitivity (foldl (fun m kv => dict_set m (fst kv) (snd kv)) [] params).
  - generalize (@nil (string * V)). clear.
    induction params as [|[key val] params IH]; intros acc; [reflexivity|apply IH].
  - exact (fold_dict_set_fresh params [] Hnd).
Qed.

(** X20.  With no rules, no transform function and no names, the object
    is the distribution under another name: its argument names are the
    ones of the distribution, [get_orig_args] returns the keywords as they
    are given, and [logpdf], [logpmf] and [rvs] are the ones of the
    distribution with these keywords. *)
Theorem plain_wrapper orig T :
  TransDist_init get_dist_args get_func_args orig None None None = Ok T ->
  args T = get_dist_args orig
  /\ forall (params : @kwargs V), NoDup (dict_keys params) ->
       get_orig_args T params = Ok params
       /\ (forall x, TransDist_logpdf T x params
                     = call_density (d_logpdf orig) x (Ok params))
       /\ (forall x, TransDist_logpmf T x params
                     = call_density (d_logpmf orig) x (Ok params))
       /\ (forall size, TransDist_rvs T size params
                        = match d_rvs orig with
                          | Some draw => draw size params
                          | None => Raise AttributeError
                          end).
Proof.
  rewrite TransDist_init_unfold. cbn [default mapM mbind result_bind mret result_ret].
  destruct (length _ =? 0); [discriminate|].
  intros Heq. injection Heq as HT.
  assert (Htf : transform_func T = Some null_transform) by (rewrite <- HT; reflexivity).
  assert (Hmap : renaming_map T = []) by (rewrite <- HT; reflexivity).
  assert (Horig : orig_dist T = orig) by (rewrite <- HT; reflexivity).
  split.
  - rewrite <- HT. cbn [args]. apply map_id.
  - intros params Hnd.
    assert (Hargs : get_orig_args T params = Ok params).
    { unfold get_orig_args. rewrite Htf, (renamed_parameters_plain T params Hmap Hnd).
      reflexivity. }
    unfold TransDist_logpdf, TransDist_logpmf, TransDist_rvs. rewrite Hargs, Horig.
    cbn [mbind result_bind]. auto.
Qed.

(** The loop of [get_orig_args] over keywords that are renamed to names
    not yet in the dictionary: the pairs are appended under the new
    names. *)
Lemma renamed_loop_fresh T (rep : string -> string) (fargs : list string) :
  (forall a, a ∈ fargs -> forward_name T (rep a) = a) ->
  forall (vals : list V) (acc : @kwargs V),
    NoDup (dict_keys acc ++ fargs) ->
    foldl (fun renamed '(key, val) =>
             match dict_get (renaming_map T) key with
             | Some name => dict_set renamed name val
             | None => dict_set renamed key val
             end)
          acc (zip (map rep fargs) vals)
    = acc ++ zip fargs vals.
Proof.
  induction fargs as [|a fargs IH]; intros Hfw vals acc Hnd.
  - simpl. rewrite app_nil_r. reflexivity.
  - destruct vals as [|v vals]; [simpl; rewrite app_nil_r; reflexivity|].
    cbn [map zip zip_with foldl].
    assert (Hstep : match dict_get (renaming_map T) (rep a) with
                    | Some name => dict_set acc name v
                    | None => dict_set acc (rep a) v
                    end = acc ++ [(a, v)]).
    { pose proof (Hfw a (list_elem_of_here a fargs)) as Ha. unfold forward_name in Ha.
      apply NoDup_app in Hnd. destruct Hnd as (_ & Hdisj & _).
      assert (Hfresh : a ∉ dict_keys acc).
      { intros Hin. apply (Hdisj a Hin), list_elem_of_here. }
      destruct (dict_get (renaming_map T) (rep a)) as [name|]; simpl in Ha; rewrite Ha;
        apply dict_set_fresh; exact Hfresh. }
    rewrite Hstep. rewrite IH.
    + rewrite <- app_assoc. reflexivity.
    + intros b Hb. apply Hfw, list_elem_of_further, Hb.
    + unfold dict_keys. rewrite map_app, <- app_assoc. exact Hnd.
Qed.

(** X21.  The argument names that the object reports are names that it
    accepts: when the names are inferred from a function whose own
    argument names are all different, and none of them is the left-hand
    side of a rule without being the right-hand side of one, calling
    [get_orig_args] with values under the reported names calls the
    transform function with these values under its own names, and
    [logpdf] passes on what it returns. *)
Theorem reported_args_accepted orig func (rules : option (list string)) T
    (vals : list V) :
  TransDist_init get_dist_args get_func_args orig func rules None = Ok T ->
  NoDup (inspected_args get_dist_args get_func_args orig func) ->
  (forall a, a ∈ inspected_args get_dist_args get_func_args orig func ->
     a ∉ dict_values (renaming_map T) -> a ∉ dict_keys (renaming_map T)) ->
  args T = map (fun arg => default arg (first_key_of (renaming_map T) arg))
               (inspected_args get_dist_args get_func_args orig func)
  /\ get_orig_args T (zip (args T) vals)
     = default null_transform func
         (zip (inspected_args get_dist_args get_func_args orig func) vals)
  /\ forall x,
       TransDist_logpdf T x (zip (args T) vals)
       = (orig_pars ← default null_transform func
                        (zip (inspected_args get_dist_args get_func_args orig func) vals);
          call_density (d_logpdf orig) x (Ok orig_pars)).
Proof.
  rewrite TransDist_init_unfold.
  destruct (mapM parse_rule (default [] rules)) as [kvs|]; cbn [mbind result_bind];
    [|discriminate].
  destruct (length _ =? 0); [discriminate|].
  intros Heq. injection Heq as HT.
  assert (Htf : transform_func T = Some (default null_transform func))
    by (rewrite <- HT; reflexivity).
  assert (Hmap : renaming_map T = rules_dict kvs) by (rewrite <- HT; reflexivity).
  assert (Horig : orig_dist T = orig) by (rewrite <- HT; reflexivity).
  assert (Hargs : args T = map (fun arg => default arg (first_key_of (renaming_map T) arg))
                               (inspected_args get_dist_args get_func_args orig func)).
  { rewrite Hmap, <- HT. reflexivity. }
  intros Hnd Hkeys. split; [exact Hargs|].
  assert (Hget : get_orig_args T (zip (args T) vals)
                 = default null_transform func
                     (zip (inspected_args get_dist_args get_func_args orig func) vals)).
  { unfold get_orig_args, renamed_parameters. rewrite Htf, Hargs. f_equal.
    rewrite (renamed_loop_fresh T _ _); [reflexivity| |exact Hnd].
    intros a Ha. unfold forward_name.
    destruct (first_key_of (renaming_map T) a) as [k|] eqn:Hk; simpl.
    - rewrite (first_key_of_Some (renaming_map T) a k); [reflexivity| |exact Hk].
      rewrite Hmap. apply rules_dict_keys_NoDup.
    - rewrite dict_get_None; [reflexivity|].
      apply Hkeys; [exact Ha|]. apply first_key_of_None. exact Hk. }
  split; [exact Hget|]. intros x. unfold TransDist_logpdf. rewrite Hget, Horig. reflexivity.
Qed.
End TransDists.

Lemma explicit_args_need_transform_witness :
  exists T,
    TransDist_init loc_scale_names declared_names no_methods None None (Some ["b"]) = Ok T
    /\ get_orig_args T [("b", 1%Z)] = Raise TypeError
    /\ TransDist_logpdf T two_by_three [("b", 1%Z)] = Raise TypeError.
Proof.
  eexists. split; [reflexivity|].
  destruct (explicit_args_need_transform loc_scale_names declared_names no_methods None
              ["b"] _ eq_refl) as (_ & _ & Hraise).
  destruct (Hraise [("b", 1%Z)] two_by_three 1%Z) as (Hget & Hlogpdf & _).
  split; [exact Hget|exact Hlogpdf].
Defined.

Lemma plain_wrapper_witness :
  exists T,
    TransDist_init loc_scale_names declared_names no_methods None None None = Ok T
    /\ args T = ["loc"; "scale"]
    /\ get_orig_args T [("loc", 0%Z)] = Ok [("loc", 0%Z)].
Proof.
  eexists. split; [reflexivity|].
  destruct (plain_wrapper loc_scale_names declared_names no_methods _ eq_refl)
    as (Hargs & Hcalls).
  split; [exact Hargs|].
  exact (proj1 (Hcalls [("loc", 0%Z)] (NoDup_singleton "loc"))).
Defined.

Lemma reported_args_accepted_witness :
  exists T,
    TransDist_init loc_scale_names declared_names no_methods (Some takes_b)
      (Some ["a -> b"]) None = Ok T
    /\ args T = ["a"]
    /\ get_orig_args T [("a", 5%Z)] = Ok [("b", 5%Z)].
Proof.
  eexists. split; [reflexivity|].
  destruct (reported_args_accepted loc_scale_names declared_names no_methods
              (Some takes_b) (Some ["a -> b"]) _ [5%Z] eq_refl) as (Hargs & Hget & _).
  - apply NoDup_singleton.
  - intros a Ha Hnot. exfalso. apply Hnot.
    apply list_elem_of_singleton in Ha. subst a. apply list_elem_of_here.
  - split; [exact Hargs|exact Hget].
Defined.

(** ** Mismatched structures, whatever the function does *)

Section MismatchExceptions.
Context {A B : Type}.
Variable f : list A -> result B.


End MismatchExceptions.




(** ** A single row and a range of one row *)

Section UnaryOnLeaves.
Context {A B C : Type}.

(** With one structure, a function that returns [h a] at every leaf [a]
    of the structure gives the structure of these values. *)
Lemma apply_f_unary_on_leaves (g : A -> result B) (h : A -> B) (P : A -> bool) :
  (forall a, P a = true -> g a = Ok (h a)) ->
  forall t, nested_forallb P t = true -> apply_f (unary g) [t] = Ok (nested_map h t).
Proof.
  intros Hg. induction t as [a|items IH] using nested_induction; intros HP.
  - simpl in *. rewrite (Hg a HP). reflexivity.
  - simpl in HP. rewrite apply_f_one_list.
    assert (Hrows : map_star (unary g) (map (fun c => [c]) items)
                    = Ok (map (nested_map h) items)).
    { induction IH as [|c items Hc _ IHitems]; simpl in *; [reflexivity|].
      apply andb_true_iff in HP as [HPc HPs].
      specialize (Hc HPc). unfold apply_f in Hc. rewrite Hc. simpl.
      rewrite (IHitems HPs). reflexivity. }
    rewrite Hrows. reflexivity.
Qed.

(** The same for a structure that is itself the structure of values of a
    function. *)
Lemma apply_f_unary_after_map (g : B -> result C) (h1 : A -> B) (h2 : A -> C) :
  (forall a, g (h1 a) = Ok (h2 a)) ->
  forall t, apply_f (unary g) [nested_map h1 t] = Ok (nested_map h2 t).
Proof.
  intros Hg. induction t as [a|items IH] using nested_induction.
  - simpl. rewrite Hg. reflexivity.
  - cbn [nested_map]. rewrite apply_f_one_list.
    assert (Hrows : map_star (unary g) (map (fun c => [c]) (map (nested_map h1) items))
                    = Ok (map (nested_map h2) items)).
    { induction IH as [|c items Hc _ IHitems]; simpl in *; [reflexivity|].
      unfold apply_f in Hc. rewrite Hc. simpl. rewrite IHitems. reflexivity. }
    rewrite Hrows. reflexivity.
Qed.
End UnaryOnLeaves.

Section SingleAndRange.
Context {E : Type}.
Implicit Types (A F : ndarray E) (t x : nested (ndarray E)).

Lemma sole_row_range_leaf (i : Z) A : sole_row (range_leaf i A) = Ok (single_leaf i A).
Proof.
  unfold sole_row, range_leaf, single_leaf, take_row, py_index, run, flat_row. simpl.
  rewrite drop_0, take_idemp. reflexivity.
Qed.

(** At a leaf: the row that the index stands for, as the single index
    and as the range of one row give it. *)
Lemma leaf_slices (i : Z) A :
  sliceable_index i A = true ->
  row_at i A = Ok (single_leaf i A) /\ rows_between i (i + 1) A = Ok (range_leaf i A).
Proof.
  unfold sliceable_index, index_in_range. intros Hs.
  apply andb_true_iff in Hs as [Hin Hne]. apply andb_true_iff in Hin as [HA Hb].
  apply andb_true_iff in Hb as [Hlo Hhi].
  apply Z.leb_le in Hlo. apply Z.ltb_lt in Hhi.
  apply negb_true_iff in Hne. apply Z.eqb_neq in Hne.
  destruct (flattenable_shape A HA) as (n & HF & Hl).
  assert (Hax : last_axis A = S n) by (unfold last_axis; rewrite Hl; reflexivity).
  assert (Hrows : np_prod (removelast (shape A)) = flat_rows A).
  { unfold flat_rows, almost_flatten. rewrite Hl. reflexivity. }
  unfold row_at, rows_between. rewrite HF. cbn [mbind result_bind].
  unfold take_row, take_rows. cbn [shape data].
  unfold single_leaf, range_leaf, flat_row, run. rewrite Hax.
  assert (Hk : py_index (flat_rows A) i = Ok (row_number i A)).
  { unfold py_index, row_number. rewrite Hrows.
    destruct (Z.leb_spec 0 i), (Z.ltb_spec i (Z.of_nat (flat_rows A))),
      (Z.leb_spec (- Z.of_nat (flat_rows A)) i), (Z.ltb_spec i 0);
      simpl; try lia; reflexivity. }
  assert (Hlo' : py_slice_bound (flat_rows A) i = row_number i A).
  { unfold py_slice_bound, row_number. rewrite Hrows. destruct (Z.ltb_spec i 0); lia. }
  assert (Hhi' : py_slice_bound (flat_rows A) (i + 1) = S (row_number i A)).
  { unfold py_slice_bound, row_number. rewrite Hrows.
    destruct (Z.ltb_spec i 0), (Z.ltb_spec (i + 1) 0); lia. }
  rewrite Hk, Hlo', Hhi'. cbn [mbind result_bind].
  replace (S (row_number i A) - row_number i A) with 1 by lia.
  rewrite Nat.mul_1_l. split; reflexivity.
Qed.

Lemma tree_slices (i : Z) t :
  nested_forallb (sliceable_index i) t = true ->
  apply_f (unary (row_at i)) [t] = Ok (nested_map (single_leaf i) t)
  /\ apply_f (unary (rows_between i (i + 1))) [t] = Ok (nested_map (range_leaf i) t).
Proof.
  intros Hs. split.
  - apply (apply_f_unary_on_leaves (row_at i) (single_leaf i) (sliceable_index i)); [|exact Hs].
    intros A HA. exact (proj1 (leaf_slices i A HA)).
  - apply (apply_f_unary_on_leaves (rows_between i (i + 1)) (range_leaf i)
             (sliceable_index i)); [|exact Hs].
    intros A HA. exact (proj2 (leaf_slices i A HA)).
Qed.

(** [list] of the row as a one-dimensional array, and of the range of one
    row. *)
Lemma py_list_single (i : Z) x :
  py_list (nested_map (single_leaf i) x) = Ok (single_slice i x).
Proof.
  destruct x as [A|items]; [|reflexivity].
  unfold single_slice, scalars_of. simpl. unfold run. f_equal. f_equal.
  rewrite map_map. apply map_ext. intros j. rewrite Nat.mul_1_r. reflexivity.
Qed.

Lemma py_list_range (i : Z) x :
  py_list (nested_map (range_leaf i) x) = Ok (range_slice i x).
Proof.
  destruct x as [A|items]; [|reflexivity].
  unfold range_slice, single_leaf. simpl. unfold run. simpl.
  unfold flat_row. rewrite Nat.mul_1_r, drop_0, take_idemp. reflexivity.
Qed.

Lemma values_of_scalars (c : nat) (row : list E) :
  flat_map values_of (scalars_of c row) = take c row.
Proof.
  unfold scalars_of. induction c as [|c IH]; [reflexivity|].
  rewrite seq_S, map_app, flat_map_app, IH. simpl.
  rewrite app_nil_r, take_take_drop. f_equal. lia.
Qed.

Lemma values_of_leaves (i : Z) t :
  values_of (nested_map (single_leaf i) t) = values_of (nested_map (range_leaf i) t)
  /\ leaf_values (nested_map (single_leaf i) t) = leaf_values (nested_map (range_leaf i) t).
Proof.
  unfold leaf_values.
  induction t as [A|items IH] using nested_induction; [split; reflexivity|].
  cbn [nested_map values_of]. 
  assert (Hitems : flat_map values_of (map (nested_map (single_leaf i)) items)
                   = flat_map values_of (map (nested_map (range_leaf i)) items)
                   /\ map (nested_map (fun a : ndarray E => data a))
                        (map (nested_map (single_leaf i)) items)
                      = map (nested_map (fun a : ndarray E => data a))
                          (map (nested_map (range_leaf i)) items)).
  { induction IH as [|c items [Hc1 Hc2] _ [IH1 IH2]]; [split; reflexivity|].
    simpl. rewrite Hc1, Hc2, IH1, IH2. split; reflexivity. }
  destruct Hitems as [H1 H2]. rewrite H1, H2. split; reflexivity.
Qed.

(** C9, as amended.  For every structure of arrays, a list of them or one
    array alone, and every index [i] that is, from the front or from the
    end, the index of a row of every leaf once flattened, the index [-1]
    apart: the slice at [i] and the slice of the range from [i] to [i + 1]
    are both returned, the first with count 1 and the second with count
    [(i + 1) - i]; the first holds at every leaf the row that [i] stands
    for as a one-dimensional array, the second holds it as a
    two-dimensional array of one row, so that the two have the same values,
    leaf by leaf, and taking the only row at every leaf of the range slice
    gives the slice at [i]; of one array alone, the first is the list of
    the elements of the row and the second the list of this one row.
    Whenever a slice is returned, its count is 1 for a single index and
    [j - i] for a range. *)
Theorem get_data_slice_single_vs_range (x : nested (ndarray E)) (size : list Z) (i : Z) :
  nested_forallb (sliceable_index i) x = true ->
  size <> [] ->
  exists n,
    last size = Some n
    /\ get_data_slice (x, size) i None = Ok (single_slice i x, (1%Z, n))
    /\ get_data_slice (x, size) i (Some (i + 1)%Z)
       = Ok (range_slice i x, ((i + 1 - i)%Z, n))
    /\ values_of (single_slice i x) = values_of (range_slice i x)
    /\ (isinstance_list x = true ->
        leaf_values (single_slice i x) = leaf_values (range_slice i x)
        /\ apply_f (unary sole_row) [range_slice i x] = Ok (single_slice i x))
    /\ (forall j d c m,
          get_data_slice (x, size) i (Some j) = Ok (d, (c, m)) -> c = (j - i)%Z)
    /\ (forall d c m, get_data_slice (x, size) i None = Ok (d, (c, m)) -> c = 1%Z).
Proof.
  intros Hs Hsize.
  destruct (tree_slices i x Hs) as [H1 H2].
  destruct (last_of_nonempty size Hsize) as [n Hn].
  exists n. split; [exact Hn|]. split; [|split; [|split; [|split; [|split]]]].
  - unfold get_data_slice, last_of. rewrite H1. cbn [mbind result_bind].
    rewrite py_list_single. cbn [mbind result_bind]. rewrite Hn. reflexivity.
  - unfold get_data_slice, last_of. rewrite H2. cbn [mbind result_bind].
    rewrite py_list_range. cbn [mbind result_bind]. rewrite Hn. reflexivity.
  - destruct x as [A|items].
    + unfold single_slice, range_slice. cbn [values_of flat_map].
      rewrite values_of_scalars, app_nil_r. unfold single_leaf, flat_row. cbn [data].
      apply take_idemp.
    + exact (proj1 (values_of_leaves i (PyList items))).
  - intros Hlist. destruct x as [A|items]; [discriminate|]. split.
    + exact (proj2 (values_of_leaves i (PyList items))).
    + apply apply_f_unary_after_map. intros A. apply sole_row_range_leaf.
  - intros j d c m. apply get_data_slice_range_count.
  - intros d c m. apply get_data_slice_single_count.
Qed.
End SingleAndRange.

(** The first realisation of [nested_data], by its index from the end, as
    a single index and as a range. *)
Lemma get_data_slice_single_vs_range_witness :
  get_data_slice (nested_data, [2%Z; 5%Z]) (-2) None
  = Ok (single_slice (-2) nested_data, (1%Z, 5%Z))
  /\ get_data_slice (nested_data, [2%Z; 5%Z]) (-2) (Some (-1)%Z)
     = Ok (range_slice (-2) nested_data, (1%Z, 5%Z))
  /\ leaf_values (single_slice (-2) nested_data) = leaf_values (range_slice (-2) nested_data).
Proof.
  destruct (get_data_slice_single_vs_range nested_data [2%Z; 5%Z] (-2)%Z
              eq_refl ltac:(discriminate))
    as (n & Hn & H1 & H2 & _ & H3 & _).
  injection Hn as <-.
  split; [exact H1|]. split; [exact H2|]. exact (proj1 (H3 eq_refl)).
Defined.

(** C9, as stated, fails.  The index [-1] is the index of the last row of
    every leaf of [nested_data], and the slice at [-1] holds these rows;
    but the range from [-1] to [0] holds no row, so that it has no values
    and no only row to take. *)
Lemma get_data_slice_last_index_differs :
  exists d1 d2,
    nested_forallb (index_in_range (-1)) nested_data = true
    /\ get_data_slice (nested_data, [2%Z; 5%Z]) (-1) None = Ok (d1, (1%Z, 5%Z))
    /\ get_data_slice (nested_data, [2%Z; 5%Z]) (-1) (Some 0%Z) = Ok (d2, (1%Z, 5%Z))
    /\ values_of d1 = [3; 4; 4; 5; 6]
    /\ values_of d2 = []
    /\ apply_f (unary sole_row) [d2] = Raise IndexError.
Proof.
  eexists _, _. split; [reflexivity|]. split; [reflexivity|]. split; [reflexivity|].
  split; [reflexivity|]. split; reflexivity.
Qed.
